(** * Form 101 export / import pipelines

    A shallow embedding of [export_f101_to_csv.py] and
    [import_f101_from_csv.py].  The two scripts talk to three services:
    the PostgreSQL store (through one psycopg2 connection with autocommit
    off), the file system, and pandas' CSV reader and writer.  The store
    and the file system are modelled as explicit state; every call that
    can be rejected by a service consults a fault plan, so that theorems
    quantify over all the ways a run can fail.  pandas' CSV codec is a
    parameter of the development. *)

From Stdlib Require Import ZArith SpecFloat.
From stdpp Require Import gmap strings list pretty.

(** ** Cell values *)

(** The Python objects that can sit in a cell of a data frame or in a
    parameter tuple handed to the store driver. *)
Inductive scalar :=
  | PyNone
  | PyBool (b : bool)
  | PyInt (z : Z)
  | PyFloat (f : spec_float)
  | PyStr (s : string)
  | NaT.

(** [pd.isna]: the missing-value markers are [None], a floating NaN and
    [NaT]. *)
Definition isna (x : scalar) : bool :=
  match x with
  | PyNone | NaT | PyFloat S754_nan => true
  | _ => false
  end.

Definition row := list scalar.

(** A data frame: ordered column names and rows in row-major order, the
    view [df.to_numpy()] iterates over. *)
Record DataFrame := mkDataFrame {
  columns : list string;
  to_numpy : list row
}.

Definition len (df : DataFrame) : nat := length (to_numpy df).

(** ** The store *)

Record column := mkColumn {
  col_name : string;
  col_type : string;
  col_default : option scalar
}.

Record table := mkTable {
  tbl_columns : list column;
  tbl_constraints : list string;
  tbl_indexes : list string;
  tbl_rows : list row
}.

(** A row of [logs.etl_logs]. *)
Record run_record := mkRun {
  log_id : Z;
  table_name : string;
  start_time : nat;
  end_time : option nat;
  status : string;
  records_processed : Z;
  error_message : option string
}.

Record database := mkDatabase {
  tables : gmap string table;
  etl_logs : list run_record
}.

Definition source_table : string := "dm.dm_f101_round_f".
Definition target_table : string := "dm.dm_f101_round_f_v2".

(** ** Exceptions *)

Record exn := Exn { exn_class : string; exn_msg : string }.

(** [str(e)] *)
Definition str (e : exn) : string := exn_msg e.

Definition undefined_table (name : string) : exn :=
  Exn "UndefinedTable" ("relation " +:+ name +:+ " does not exist").

(** ** Statements and their meaning on a database *)

(** [(LIKE t INCLUDING DEFAULTS INCLUDING CONSTRAINTS)]: column names and
    types with their defaults, and the constraints; indexes are not
    requested and no row is copied. *)
Definition like (t : table) : table :=
  {| tbl_columns := tbl_columns t;
     tbl_constraints := tbl_constraints t;
     tbl_indexes := [];
     tbl_rows := [] |}.

(** The same table holding the rows [rs]. *)
Definition with_rows (rs : list row) (t : table) : table :=
  {| tbl_columns := tbl_columns t;
     tbl_constraints := tbl_constraints t;
     tbl_indexes := tbl_indexes t;
     tbl_rows := rs |}.

Definition set_table (name : string) (t : table) (db : database) : database :=
  {| tables := <[name := t]> (tables db); etl_logs := etl_logs db |}.

(** [CREATE TABLE IF NOT EXISTS dm.dm_f101_round_f_v2 (LIKE dm.dm_f101_round_f ...)] *)
Definition sql_create_table_copy (db : database) : exn + database :=
  match tables db !! target_table with
  | Some _ => inr db
  | None =>
      match tables db !! source_table with
      | Some t => inr (set_table target_table (like t) db)
      | None => inl (undefined_table source_table)
      end
  end.

(** [INSERT INTO logs.etl_logs (table_name, start_time, status,
    records_processed) VALUES (...) RETURNING log_id], the identifier
    being drawn from the store's sequence. *)
Definition sql_insert_log (id : Z) (tn : string) (start : nat) (st : string)
    (n : Z) (db : database) : database :=
  {| tables := tables db;
     etl_logs := etl_logs db ++
       [ {| log_id := id; table_name := tn; start_time := start;
            end_time := None; status := st; records_processed := n;
            error_message := None |} ] |}.

Definition close_record (finish : nat) (st : string) (n : Z)
    (err : option string) (r : run_record) : run_record :=
  {| log_id := log_id r; table_name := table_name r;
     start_time := start_time r; end_time := Some finish; status := st;
     records_processed := n; error_message := err |}.

(** [UPDATE logs.etl_logs SET end_time, status, records_processed,
    error_message WHERE log_id = id] *)
Definition sql_update_log (finish : nat) (st : string) (n : Z)
    (err : option string) (id : Z) (db : database) : database :=
  {| tables := tables db;
     etl_logs := map (fun r => if decide (log_id r = id)
                               then close_record finish st n err r else r)
                     (etl_logs db) |}.

(** [TRUNCATE TABLE dm.dm_f101_round_f_v2] *)
Definition sql_truncate (db : database) : exn + database :=
  match tables db !! target_table with
  | Some t =>
      inr (set_table target_table (with_rows [] t) db)
  | None => inl (undefined_table target_table)
  end.

(** The value bound to column [c] by [INSERT INTO t (cols) VALUES (args)]. *)
Fixpoint bound_value (c : string) (cols : list string) (args : row)
    : option scalar :=
  match cols, args with
  | c' :: cols', a :: args' =>
      if decide (c = c') then Some a else bound_value c cols' args'
  | _, _ => None
  end.

(** One [INSERT] with an explicit column list: the listed columns take the
    parameters in the list's order, every other column of the table its
    default (null when it has none). *)
Definition insert_row (tcols : list column) (cols : list string) (args : row)
    : exn + row :=
  if negb (bool_decide (length args = length cols)) then
    inl (Exn "ProgrammingError" "not all arguments converted")
  else if negb (bool_decide (NoDup cols)) then
    inl (Exn "DuplicateColumn" "column specified more than once")
  else if negb (bool_decide (cols ⊆ map col_name tcols)) then
    inl (Exn "UndefinedColumn" "column of relation does not exist")
  else
    inr (map (fun tc => match bound_value (col_name tc) cols args with
                        | Some v => v
                        | None => default PyNone (col_default tc)
                        end) tcols).

Fixpoint insert_rows (tcols : list column) (cols : list string)
    (page : list row) : exn + list row :=
  match page with
  | [] => inr []
  | args :: page' =>
      match insert_row tcols cols args with
      | inl e => inl e
      | inr r =>
          match insert_rows tcols cols page' with
          | inl e => inl e
          | inr rs => inr (r :: rs)
          end
      end
  end.

(** One round trip of [execute_batch]: the [INSERT INTO
    dm.dm_f101_round_f_v2 (cols) VALUES (...)] statements of a page, which
    take effect together or not at all. *)
Definition sql_insert_page (cols : list string) (page : list row)
    (db : database) : exn + database :=
  match tables db !! target_table with
  | Some t =>
      match insert_rows (tbl_columns t) cols page with
      | inl e => inl e
      | inr rs =>
          inr (set_table target_table (with_rows (tbl_rows t ++ rs) t) db)
      end
  | None => inl (undefined_table target_table)
  end.

(** [SELECT * FROM dm.dm_f101_round_f]: every column in the table's own
    order and every row. *)
Definition sql_select_all (db : database) : exn + DataFrame :=
  match tables db !! source_table with
  | Some t =>
      inr {| columns := map col_name (tbl_columns t); to_numpy := tbl_rows t |}
  | None => inl (undefined_table source_table)
  end.

(** ** Effects: the world the scripts run in *)

(** The statements the scripts send through a cursor. *)
Inductive stmt :=
  | CreateTableCopy
  | InsertLog (tn : string) (start : nat) (st : string) (n : Z)
  | UpdateLog (finish : nat) (st : string) (n : Z) (err : option string) (id : Z)
  | Truncate
  | InsertPage (cols : list string) (page : list row)
  | SelectAll.

(** What a run does to its collaborators, in order. *)
Inductive event :=
  | EvConnect
  | EvExecute (q : stmt)
  | EvCommit
  | EvRollback
  | EvClose
  | EvExists (path : string)
  | EvReadCsv (path : string)
  | EvToCsv (path : string).

(** The calls a service may reject.  [EndExec] and [EndCommit] carry the
    status being written, which tells the closing update of the normal
    path from the one of the exception handler; [BatchExec k] is the
    [k]-th round trip of the bulk insert. *)
Inductive site :=
  | Connect
  | CreateExec | CreateCommit
  | StartExec | StartCommit
  | ReadSql
  | ToCsv
  | TruncateExec | TruncateCommit
  | BatchExec (k : nat)
  | EndExec (st : string) | EndCommit (st : string).

Definition fault_plan := site -> option exn.

Definition no_fault : fault_plan := fun _ => None.

(** The local variables of the running entry point that its handler and
    its [finally] block look at: [conn], and [log_id] when it is bound. *)
Record frame := mkFrame {
  l_conn : bool;
  l_log_id : option Z
}.

Record state := mkState {
  durable : database;          (* what the store has committed *)
  session : database;          (* what the connection's transaction sees *)
  log_seq : Z;                 (* the sequence behind [log_id] *)
  files : gmap string string;  (* path to text *)
  clock : nat;                 (* [datetime.now()] *)
  logged : list (string * string);
  trace : list event;
  history : list database;     (* the committed states, oldest first *)
  locals : frame
}.

Definition with_durable (db : database) (s : state) : state :=
  mkState db (session s) (log_seq s) (files s) (clock s) (logged s)
          (trace s) (history s) (locals s).
Definition with_session (db : database) (s : state) : state :=
  mkState (durable s) db (log_seq s) (files s) (clock s) (logged s)
          (trace s) (history s) (locals s).
Definition with_log_seq (n : Z) (s : state) : state :=
  mkState (durable s) (session s) n (files s) (clock s) (logged s)
          (trace s) (history s) (locals s).
Definition with_files (fs : gmap string string) (s : state) : state :=
  mkState (durable s) (session s) (log_seq s) fs (clock s) (logged s)
          (trace s) (history s) (locals s).
Definition with_clock (n : nat) (s : state) : state :=
  mkState (durable s) (session s) (log_seq s) (files s) n (logged s)
          (trace s) (history s) (locals s).
Definition with_logged (l : list (string * string)) (s : state) : state :=
  mkState (durable s) (session s) (log_seq s) (files s) (clock s) l
          (trace s) (history s) (locals s).
Definition with_trace (t : list event) (s : state) : state :=
  mkState (durable s) (session s) (log_seq s) (files s) (clock s) (logged s)
          t (history s) (locals s).
Definition with_history (h : list database) (s : state) : state :=
  mkState (durable s) (session s) (log_seq s) (files s) (clock s) (logged s)
          (trace s) h (locals s).
Definition with_locals (f : frame) (s : state) : state :=
  mkState (durable s) (session s) (log_seq s) (files s) (clock s) (logged s)
          (trace s) (history s) f.

Definition emit (ev : event) (s : state) : state :=
  with_trace (trace s ++ [ev]) s.

(** A computation either raises or returns, and leaves a state behind in
    both cases. *)
Definition M (A : Type) : Type := state -> (exn + A) * state.

Definition ret {A} (a : A) : M A := fun s => (inr a, s).

Definition bind {A B} (m : M A) (k : A -> M B) : M B :=
  fun s => match m s with
           | (inl e, s') => (inl e, s')
           | (inr a, s') => k a s'
           end.

Definition raise {A} (e : exn) : M A := fun s => (inl e, s).

Notation "x <- c1 ;; c2" := (bind c1 (fun x => c2))
  (at level 100, c1 at next level, right associativity).
Notation "c1 ;; c2" := (bind c1 (fun _ => c2))
  (at level 100, right associativity).

(** [try: body except Exception as e: handler e] *)
Definition try_except {A} (body : M A) (handler : exn -> M A) : M A :=
  fun s => match body s with
           | (inl e, s') => handler e s'
           | (inr a, s') => (inr a, s')
           end.

(** [try: body finally: fin]; an exception of [fin] replaces the outcome
    of [body]. *)
Definition try_finally {A} (body : M A) (fin : M unit) : M A :=
  fun s => match body s with
           | (r, s') =>
               match fin s' with
               | (inl e, s'') => (inl e, s'')
               | (inr _, s'') => (r, s'')
               end
           end.

Definition logger_info (msg : string) : M unit :=
  fun s => (inr tt, with_logged (logged s ++ [("INFO", msg)]) s).

Definition logger_error (msg : string) : M unit :=
  fun s => (inr tt, with_logged (logged s ++ [("ERROR", msg)]) s).

(** [datetime.now()] *)
Definition datetime_now : M nat :=
  fun s => (inr (clock s), with_clock (S (clock s)) s).

Definition get_locals : M frame := fun s => (inr (locals s), s).

Definition set_conn : M unit :=
  fun s => (inr tt, with_locals (mkFrame true (l_log_id (locals s))) s).

Definition set_log_id (id : Z) : M unit :=
  fun s => (inr tt, with_locals (mkFrame (l_conn (locals s)) (Some id)) s).

(** Entering an entry point: [conn = None], and [log_id] not bound yet. *)
Definition enter (s : state) : state := with_locals (mkFrame false None) s.

(** [os.path.exists] *)
Definition path_exists (p : string) : M bool :=
  fun s => (inr (bool_decide (is_Some (files s !! p))), emit (EvExists p) s).

Section Services.

(** Which calls the store or the file system rejects in this run. *)
Variable fault : fault_plan.

(** [psycopg2.connect]: a new connection sees the committed state. *)
Definition connect : M unit :=
  fun s =>
    let s1 := emit EvConnect s in
    match fault Connect with
    | Some e => (inl e, s1)
    | None => (inr tt, with_session (durable s1) s1)
    end.

(** [cursor.execute]: a rejected statement changes nothing. *)
Definition execute (at_ : site) (q : stmt)
    (sem : database -> exn + database) : M unit :=
  fun s =>
    let s1 := emit (EvExecute q) s in
    match fault at_ with
    | Some e => (inl e, s1)
    | None =>
        match sem (session s1) with
        | inl e => (inl e, s1)
        | inr db => (inr tt, with_session db s1)
        end
    end.

(** [cursor.execute] of the ledger insert followed by
    [cursor.fetchone()[0]]. *)
Definition execute_insert_log (tn : string) (start : nat) (st : string)
    (n : Z) : M Z :=
  fun s =>
    let s1 := emit (EvExecute (InsertLog tn start st n)) s in
    match fault StartExec with
    | Some e => (inl e, s1)
    | None =>
        let id := log_seq s1 in
        (inr id,
         with_log_seq (id + 1)
           (with_session (sql_insert_log id tn start st n (session s1)) s1))
    end.

(** [conn.commit()] *)
Definition commit (at_ : site) : M unit :=
  fun s =>
    let s1 := emit EvCommit s in
    match fault at_ with
    | Some e => (inl e, s1)
    | None =>
        (inr tt,
         with_history (history s1 ++ [session s1])
           (with_durable (session s1) s1))
    end.

(** [conn.rollback()] *)
Definition rollback : M unit :=
  fun s => let s1 := emit EvRollback s in
           (inr tt, with_session (durable s1) s1).

(** [conn.close()]: whatever was not committed is gone. *)
Definition close : M unit :=
  fun s => let s1 := emit EvClose s in
           (inr tt, with_session (durable s1) s1).

(** [create_connection], the same in both scripts. *)
Definition create_connection : M unit :=
  try_except
    (connect ;;
     logger_info "Успешное подключение к базе данных")
    (fun e =>
       logger_error ("Ошибка подключения к базе данных: " +:+ str e) ;;
       raise e).

End Services.

(** ** psycopg2's [execute_batch] *)

(** [_paginate]: the argument list cut into pages of [page_size] items, a
    shorter last page when the length is not a multiple.  [page] is the
    page being filled. *)
Fixpoint paginate_from {A} (page_size : nat) (page : list A) (seq : list A)
    : list (list A) :=
  match seq with
  | [] => match page with [] => [] | _ => [page] end
  | x :: seq' =>
      if decide (page_size <= length (page ++ [x]))
      then (page ++ [x]) :: paginate_from page_size [] seq'
      else paginate_from page_size (page ++ [x]) seq'
  end.

Definition paginate {A} (seq : list A) (page_size : nat) : list (list A) :=
  paginate_from page_size [] seq.

Definition DATA_DIR : string := "data".

(** [os.path.join] of a directory and a file name *)
Definition path_join (dir name : string) : string := dir +:+ "/" +:+ name.

Section Scripts.

Variable fault : fault_plan.

(** pandas' CSV writer and reader: [df.to_csv(path, index=False)]
    produces the text [to_csv df], [pd.read_csv(path)] parses a text
    into a frame or raises. *)
Variable to_csv : DataFrame -> string.
Variable read_csv : string -> exn + DataFrame.

(** One cursor round trip per page, in order; the first rejected page
    ends the loop. *)
Fixpoint execute_pages (cols : list string) (k : nat)
    (pages : list (list row)) : M unit :=
  match pages with
  | [] => ret tt
  | page :: pages' =>
      execute fault (BatchExec k) (InsertPage cols page)
              (sql_insert_page cols page) ;;
      execute_pages cols (S k) pages'
  end.

Definition execute_batch (cols : list string) (argslist : list row)
    (page_size : nat) : M unit :=
  execute_pages cols 0 (paginate argslist page_size).

(** [pd.read_sql("SELECT * FROM dm.dm_f101_round_f", conn)] *)
Definition pd_read_sql : M DataFrame :=
  fun s =>
    let s1 := emit (EvExecute SelectAll) s in
    match fault ReadSql with
    | Some e => (inl e, s1)
    | None =>
        match sql_select_all (session s1) with
        | inl e => (inl e, s1)
        | inr df => (inr df, s1)
        end
    end.

(** [df.to_csv(path, index=False, encoding='utf-8')] *)
Definition df_to_csv (df : DataFrame) (path : string) : M unit :=
  fun s =>
    let s1 := emit (EvToCsv path) s in
    match fault ToCsv with
    | Some e => (inl e, s1)
    | None => (inr tt, with_files (<[path := to_csv df]> (files s1)) s1)
    end.

(** [pd.read_csv(path)] *)
Definition pd_read_csv (path : string) : M DataFrame :=
  fun s =>
    let s1 := emit (EvReadCsv path) s in
    match files s1 !! path with
    | None => (inl (Exn "FileNotFoundError" ("No such file or directory: " +:+ path)), s1)
    | Some text =>
        match read_csv text with
        | inl e => (inl e, s1)
        | inr df => (inr df, s1)
        end
    end.

(** *** export_f101_to_csv.py *)

Definition log_export_start : M Z :=
  try_except
    (t <- datetime_now ;;
     id <- execute_insert_log fault "dm.dm_f101_round_f" t "started" 0 ;;
     commit fault StartCommit ;;
     ret id)
    (fun e =>
       rollback ;;
       logger_error ("Ошибка при логировании начала экспорта: " +:+ str e) ;;
       raise e).

Definition log_export_end (id : Z) (st : string) (n : Z)
    (error_msg : option string) : M unit :=
  try_except
    (t <- datetime_now ;;
     execute fault (EndExec st) (UpdateLog t st n error_msg id)
             (fun db => inr (sql_update_log t st n error_msg id db)) ;;
     commit fault (EndCommit st))
    (fun e =>
       rollback ;;
       logger_error ("Ошибка при логировании завершения экспорта: " +:+ str e) ;;
       raise e).

Definition output_file : string := path_join DATA_DIR "f101_round_data.csv".

(** The [try] block of [export_f101_to_csv]. *)
Definition export_body : M unit :=
  create_connection fault ;;
  set_conn ;;
  id <- log_export_start ;;
  set_log_id id ;;
  df <- pd_read_sql ;;
  df_to_csv df output_file ;;
  let records_exported := Z.of_nat (len df) in
  logger_info ("Успешно экспортировано " +:+ pretty records_exported
               +:+ " записей в " +:+ output_file) ;;
  log_export_end id "completed" records_exported None.

(** Its [except Exception as e] block. *)
Definition export_handler (e : exn) : M unit :=
  let error_msg := str e in
  logger_error ("Ошибка при экспорте данных: " +:+ error_msg) ;;
  fr <- get_locals ;;
  match l_conn fr, l_log_id fr with
  | true, Some id => log_export_end id "failed" 0 (Some error_msg)
  | _, _ => ret tt
  end ;;
  raise e.

(** The [finally] block, the same in both scripts. *)
Definition close_connection : M unit :=
  fr <- get_locals ;;
  if l_conn fr then
    close ;;
    logger_info "Соединение с базой данных закрыто"
  else ret tt.

Definition export_f101_to_csv : M unit :=
  fun s =>
    try_finally (try_except export_body export_handler) close_connection
                (enter s).

(** *** import_f101_from_csv.py *)

Definition log_import_start : M Z :=
  try_except
    (t <- datetime_now ;;
     id <- execute_insert_log fault "dm.dm_f101_round_f_v2" t "started" 0 ;;
     commit fault StartCommit ;;
     ret id)
    (fun e =>
       rollback ;;
       logger_error ("Ошибка при логировании начала импорта: " +:+ str e) ;;
       raise e).

Definition log_import_end (id : Z) (st : string) (n : Z)
    (error_msg : option string) : M unit :=
  try_except
    (t <- datetime_now ;;
     execute fault (EndExec st) (UpdateLog t st n error_msg id)
             (fun db => inr (sql_update_log t st n error_msg id db)) ;;
     commit fault (EndCommit st))
    (fun e =>
       rollback ;;
       logger_error ("Ошибка при логировании завершения импорта: " +:+ str e) ;;
       raise e).

Definition create_table_copy : M unit :=
  try_except
    (execute fault CreateExec CreateTableCopy sql_create_table_copy ;;
     commit fault CreateCommit ;;
     logger_info "Таблица dm.dm_f101_round_f_v2 успешно создана")
    (fun e =>
       rollback ;;
       logger_error ("Ошибка при создании таблицы: " +:+ str e) ;;
       raise e).

Definition input_file : string :=
  path_join DATA_DIR "f101_round_data_modified.csv".

(** [[tuple(None if pd.isna(x) else x for x in row) for row in df.to_numpy()]] *)
Definition data_tuples (df : DataFrame) : list row :=
  map (map (fun x => if isna x then PyNone else x)) (to_numpy df).

(** The [try] block of [import_f101_from_csv]. *)
Definition import_body : M unit :=
  create_connection fault ;;
  set_conn ;;
  create_table_copy ;;
  id <- log_import_start ;;
  set_log_id id ;;
  found <- path_exists input_file ;;
  (if found then ret tt
   else raise (Exn "FileNotFoundError"
                   ("Файл " +:+ input_file +:+ " не найден"))) ;;
  df <- pd_read_csv input_file ;;
  execute fault TruncateExec Truncate sql_truncate ;;
  commit fault TruncateCommit ;;
  let tuples := data_tuples df in
  let cols := columns df in
  execute_batch cols tuples 1000 ;;
  let records_imported := Z.of_nat (length tuples) in
  logger_info ("Успешно импортировано " +:+ pretty records_imported
               +:+ " записей в dm.dm_f101_round_f_v2") ;;
  log_import_end id "completed" records_imported None.

(** Its [except Exception as e] block. *)
Definition import_handler (e : exn) : M unit :=
  let error_msg := str e in
  logger_error ("Ошибка при импорте данных: " +:+ error_msg) ;;
  fr <- get_locals ;;
  match l_conn fr, l_log_id fr with
  | true, Some id => log_import_end id "failed" 0 (Some error_msg)
  | _, _ => ret tt
  end ;;
  raise e.

Definition import_f101_from_csv : M unit :=
  fun s =>
    try_finally (try_except import_body import_handler) close_connection
                (enter s).

End Scripts.

(** ** A plain CSV codec

    A small writer and reader for comma-separated text without quoting,
    used to run the scripts on concrete files: a header line, one line per
    row, an empty field for a missing value; the reader keeps every
    non-empty field as text. *)

Definition newline : string := String (Ascii.ascii_of_nat 10) EmptyString.

Definition render (x : scalar) : string :=
  match x with
  | PyStr s => s
  | PyInt z => pretty z
  | PyBool true => "True"
  | PyBool false => "False"
  | _ => ""
  end.

Fixpoint join (sep : string) (l : list string) : string :=
  match l with
  | [] => ""
  | [x] => x
  | x :: l' => x +:+ sep +:+ join sep l'
  end.

Fixpoint split_on (c : Ascii.ascii) (s : string) : list string :=
  match s with
  | EmptyString => [EmptyString]
  | String a s' =>
      if Ascii.eqb a c then EmptyString :: split_on c s'
      else match split_on c s' with
           | [] => [String a EmptyString]
           | f :: fs => String a f :: fs
           end
  end.

Definition plain_to_csv (df : DataFrame) : string :=
  foldr (fun l acc => l +:+ newline +:+ acc) ""
        (join "," (columns df) :: map (fun r => join "," (map render r)) (to_numpy df)).

Definition parse_field (s : string) : scalar :=
  match s with
  | EmptyString => PyFloat S754_nan
  | _ => PyStr s
  end.

Definition plain_read_csv (text : string) : exn + DataFrame :=
  match filter (fun l => l <> EmptyString) (split_on (Ascii.ascii_of_nat 10) text) with
  | [] => inl (Exn "EmptyDataError" "No columns to parse from file")
  | header :: lines =>
      inr {| columns := split_on (Ascii.ascii_of_nat 44) header;
             to_numpy := map (fun l => map parse_field (split_on (Ascii.ascii_of_nat 44) l)) lines |}
  end.

(** ** Sample data *)

Definition f101_columns : list column :=
  [ mkColumn "chapter" "char(1)" None;
    mkColumn "ledger_account" "char(5)" None;
    mkColumn "characteristic" "char(1)" (Some (PyStr "A")) ].

Definition f101_sample : table :=
  {| tbl_columns := f101_columns;
     tbl_constraints := ["ledger_account IS NOT NULL"];
     tbl_indexes := ["dm_f101_round_f_pkey"];
     tbl_rows := [ [PyStr "A"; PyStr "10201"; PyStr "P"];
                   [PyStr "B"; PyStr "20202"; PyNone] ] |}.

Definition sample_db : database :=
  {| tables := <[source_table := f101_sample]> ∅; etl_logs := [] |}.

Definition initial_state (db : database) (seq : Z)
    (fs : gmap string string) : state :=
  mkState db db seq fs 0 [] [] [] (mkFrame false None).

Definition sample_csv : string :=
  "chapter,ledger_account,characteristic" +:+ newline +:+
  "A,10201,P" +:+ newline +:+
  "B,20202," +:+ newline.

(** ** Observations on a run *)

(** The events a run added to the trace it started from. *)
Definition new_events (s s' : state) : list event :=
  drop (length (trace s)) (trace s').

(** The states a run committed, oldest first. *)
Definition new_commits (s s' : state) : list database :=
  drop (length (history s)) (history s').

Definition is_update_log (ev : event) : bool :=
  match ev with
  | EvExecute (UpdateLog _ _ _ _ _) => true
  | _ => false
  end.

(** Statements that change the store. *)
Definition is_store_write (ev : event) : bool :=
  match ev with
  | EvExecute SelectAll => false
  | EvExecute _ => true
  | _ => false
  end.

Definition is_table_write (ev : event) : bool :=
  match ev with
  | EvExecute Truncate | EvExecute (InsertPage _ _) => true
  | _ => false
  end.

Definition is_exists_check (ev : event) : bool :=
  match ev with
  | EvExists _ => true
  | _ => false
  end.

(** The events that precede the first [os.path.exists] call. *)
Fixpoint before_check (tr : list event) : list event :=
  match tr with
  | [] => []
  | ev :: tr' => if is_exists_check ev then [] else ev :: before_check tr'
  end.

(** The Run Record with identifier [id], if any. *)
Definition find_run (id : Z) (db : database) : option run_record :=
  head (filter (fun r => log_id r = id) (etl_logs db)).

(** The status of record [id] in each committed state that has it. *)
Definition status_history (id : Z) (h : list database) : list string :=
  omap (fun db => status <$> find_run id db) h.

(** The statements of each transaction of a trace: a transaction ends at
    a commit (kept, with [true]) or at a rollback or close (dropped work,
    [false]); [cur] collects the statements of the open one. *)
Fixpoint transactions (cur : list stmt) (tr : list event)
    : list (list stmt * bool) :=
  match tr with
  | [] => match cur with [] => [] | _ => [(cur, false)] end
  | EvExecute q :: tr' => transactions (cur ++ [q]) tr'
  | EvCommit :: tr' => (cur, true) :: transactions [] tr'
  | EvRollback :: tr' | EvClose :: tr' =>
      match cur with
      | [] => transactions [] tr'
      | _ => (cur, false) :: transactions [] tr'
      end
  | _ :: tr' => transactions cur tr'
  end.

(** The store never handed out an identifier at or above its sequence. *)
Definition fresh_ids (s : state) : Prop :=
  Forall (fun r => (log_id r < log_seq s)%Z) (etl_logs (durable s)).


(** Pages as [execute_batch] sends them: every page but the last holds
    exactly [n] rows, the last one between 1 and [n]. *)
Fixpoint batched {A} (n : nat) (pages : list (list A)) : Prop :=
  match pages with
  | [] => True
  | [p] => 0 < length p <= n
  | p :: ps => length p = n /\ batched n ps
  end.

(** ** The two entry points side by side *)

Inductive script := Export | Import.

Section Entry.

Variable fault : fault_plan.
Variable to_csv : DataFrame -> string.
Variable read_csv : string -> exn + DataFrame.

Definition script_body (p : script) : M unit :=
  match p with
  | Export => export_body fault to_csv
  | Import => import_body fault read_csv
  end.

Definition script_handler (p : script) : exn -> M unit :=
  match p with
  | Export => export_handler fault
  | Import => import_handler fault
  end.

Definition run_script (p : script) : M unit :=
  match p with
  | Export => export_f101_to_csv fault to_csv
  | Import => import_f101_from_csv fault read_csv
  end.

End Entry.

(** The [table_name] a script writes in its Run Record. *)
Definition ledger_name (p : script) : string :=
  match p with
  | Export => "dm.dm_f101_round_f"
  | Import => "dm.dm_f101_round_f_v2"
  end.

(** The line the handler of a script logs for the error it caught. *)
Definition failure_line (p : script) (e : exn) : string * string :=
  match p with
  | Export => ("ERROR", "Ошибка при экспорте данных: " +:+ str e)
  | Import => ("ERROR", "Ошибка при импорте данных: " +:+ str e)
  end.

(** The line [log_export_end] / [log_import_end] logs when its own write
    fails. *)
Definition ledger_failure_line (p : script) (e : exn) : string * string :=
  match p with
  | Export => ("ERROR", "Ошибка при логировании завершения экспорта: " +:+ str e)
  | Import => ("ERROR", "Ошибка при логировании завершения импорта: " +:+ str e)
  end.

Definition page_events (cols : list string) (pages : list (list row))
    : list event :=
  map (fun p => EvExecute (InsertPage cols p)) pages.

(** How many rows table [name] holds in [db]. *)
Definition rows_of (name : string) (db : database) : nat :=
  match tables db !! name with
  | Some t => length (tbl_rows t)
  | None => 0
  end.

(** The rows a finished run moved: read from the source table as the run
    found it (export), held by the target table as the run left it
    (import). *)
Definition rows_moved (p : script) (s s' : state) : nat :=
  match p with
  | Export => rows_of source_table (durable s)
  | Import => rows_of target_table (durable s')
  end.

(** The committed states a finished run goes through after its ledger
    begin: the begin itself and the closing update, with the truncate in
    between for the import. *)
Definition expected_progress (p : script) : list string :=
  match p with
  | Export => ["started"; "completed"]
  | Import => ["started"; "started"; "completed"]
  end.

(** ** Fault plans and sample runs *)

#[global] Instance site_eq_dec : EqDecision site.
Proof. solve_decision. Defined.

(** The plan that rejects exactly the listed calls, each with its error. *)
Fixpoint faults_at (l : list (site * exn)) (y : site) : option exn :=
  match l with
  | [] => None
  | (x, e) :: l' => if decide (x = y) then Some e else faults_at l' y
  end.

Definition ledger_down : exn :=
  Exn "OperationalError" "server closed the connection unexpectedly".

Definition read_failed : exn :=
  Exn "DatabaseError" "Execution failed on sql: SELECT * FROM dm.dm_f101_round_f".

(** The sample store with no input file on disk. *)
Definition missing_file_state : state := initial_state sample_db 1 ∅.

(** The sample store with the sample file where the import looks for it. *)
Definition ready_state : state :=
  initial_state sample_db 1 (<[input_file := sample_csv]> ∅).

Definition is_insert_page (ev : event) : bool :=
  match ev with
  | EvExecute (InsertPage _ _) => true
  | _ => false
  end.

(** The frame [SELECT *] builds from a table. *)
Definition frame_of (t : table) : DataFrame :=
  {| columns := map col_name (tbl_columns t); to_numpy := tbl_rows t |}.


(** ** The ledger functions of the two scripts side by side *)

Definition script_log_start (fault : fault_plan) (p : script) : M Z :=
  match p with
  | Export => log_export_start fault
  | Import => log_import_start fault
  end.

Definition script_log_end (fault : fault_plan) (p : script)
    : Z -> string -> Z -> option string -> M unit :=
  match p with
  | Export => log_export_end fault
  | Import => log_import_end fault
  end.

(** The line [log_export_start] / [log_import_start] logs when its own
    write fails. *)
Definition start_failure_line (p : script) (e : exn) : string * string :=
  match p with
  | Export => ("ERROR", "Ошибка при логировании начала экспорта: " +:+ str e)
  | Import => ("ERROR", "Ошибка при логировании начала импорта: " +:+ str e)
  end.

(** The line [create_connection] logs when the store cannot be reached. *)
Definition connect_failure_line (e : exn) : string * string :=
  ("ERROR", "Ошибка подключения к базе данных: " +:+ str e).

(** The line the [finally] block logs after closing the connection. *)
Definition closed_line : string * string :=
  ("INFO", "Соединение с базой данных закрыто").

(** The lines a run added to the log it started from. *)
Definition new_logged (s s' : state) : list (string * string) :=
  drop (length (logged s)) (logged s').

Definition is_error_line (l : string * string) : bool :=
  bool_decide (fst l = "ERROR").

Definition is_close (ev : event) : bool :=
  match ev with
  | EvClose => true
  | _ => false
  end.



(** * Pagination *)

Lemma paginate_from_concat {A} (n : nat) (seq page : list A) :
  concat (paginate_from n page seq) = page ++ seq.
Proof.
  revert page. induction seq as [|x seq IH]; intros page; simpl.
  - destruct page; simpl; [reflexivity|]. by rewrite !app_nil_r.
  - case_decide; simpl; rewrite IH; simpl; by rewrite <- app_assoc.
Qed.

Lemma paginate_from_batched {A} (n : nat) (seq page : list A) :
  0 < n -> length page < n -> batched n (paginate_from n page seq).
Proof.
  intros Hn. revert page. induction seq as [|x seq IH]; intros page Hp; simpl.
  - destruct page; simpl in *; [exact I|lia].
  - case_decide as Hfull.
    + rewrite length_app in Hfull. simpl in Hfull.
      specialize (IH [] Hn).
      assert (Hlen : length (page ++ [x]) = n) by (rewrite length_app; simpl; lia).
      destruct (paginate_from n [] seq) eqn:E; simpl.
      * lia.
      * split; [exact Hlen|]. exact IH.
    + apply IH. rewrite length_app in *. simpl in *. lia.
Qed.

(** * Bulk insert *)

Lemma insert_rows_length tc cols page rs :
  insert_rows tc cols page = inr rs -> length rs = length page.
Proof.
  revert rs. induction page as [|a page IH]; intros rs; simpl.
  - by intros [= <-].
  - destruct (insert_row tc cols a); [done|].
    destruct (insert_rows tc cols page); [done|].
    intros [= <-]. simpl. f_equal. by apply IH.
Qed.

Lemma insert_rows_app tc cols a b ra rb :
  insert_rows tc cols a = inr ra -> insert_rows tc cols b = inr rb ->
  insert_rows tc cols (a ++ b) = inr (ra ++ rb).
Proof.
  revert ra. induction a as [|x a IH]; intros ra; simpl.
  - by intros [= <-].
  - destruct (insert_row tc cols x); [done|].
    destruct (insert_rows tc cols a); [done|].
    intros [= <-] Hb. by rewrite (IH _ eq_refl Hb).
Qed.

Lemma with_rows_same t : with_rows (tbl_rows t) t = t.
Proof. by destruct t. Qed.

Lemma state_eta s : with_trace (trace s) (with_session (session s) s) = s.
Proof. by destruct s. Qed.

Lemma sql_insert_page_inv cols page db db' :
  sql_insert_page cols page db = inr db' ->
  exists t rs, tables db !! target_table = Some t
    /\ insert_rows (tbl_columns t) cols page = inr rs
    /\ db' = set_table target_table (with_rows (tbl_rows t ++ rs) t) db.
Proof.
  unfold sql_insert_page.
  destruct (tables db !! target_table) as [t|]; [|done].
  destruct (insert_rows (tbl_columns t) cols page) as [|rs] eqn:E; [done|].
  intros [= <-]. by exists t, rs.
Qed.

Lemma execute_pages_shape fault cols pages : forall k s r s',
  execute_pages fault cols k pages s = (r, s') ->
  exists j db',
    s' = with_trace (trace s ++ page_events cols (take j pages)) (with_session db' s)
    /\ etl_logs db' = etl_logs (session s)
    /\ (r = inr tt ->
        j = length pages /\
        forall t, tables (session s) !! target_table = Some t ->
          exists rs, insert_rows (tbl_columns t) cols (concat pages) = inr rs
            /\ tables db' = <[target_table := with_rows (tbl_rows t ++ rs) t]> (tables (session s))).
Proof.
  induction pages as [|page pages IH]; intros k s r s'; simpl.
  - intros [= <- <-]. exists 0, (session s). simpl. rewrite app_nil_r, state_eta.
    split; [done|]. split; [done|]. intros _. split; [done|].
    intros t Ht. exists []. split; [done|].
    by rewrite app_nil_r, with_rows_same, insert_id.
  - unfold bind, execute. simpl.
    destruct (fault (BatchExec k)) as [e|].
    { intros [= <- <-]. exists 1, (session s). simpl.
      split; [by destruct s|]. split; [done|]. done. }
    destruct (sql_insert_page cols page (session s)) as [e|db1] eqn:Hp.
    { intros [= <- <-]. exists 1, (session s). simpl.
      split; [by destruct s|]. split; [done|]. done. }
    intros Hrest. apply IH in Hrest as (j & db' & -> & Hlogs & Hok).
    apply sql_insert_page_inv in Hp as (t1 & r1 & Ht1 & Hr1 & ->).
    exists (S j), db'. simpl in *. split.
    { unfold with_trace, with_session, emit; simpl. f_equal.
      unfold with_trace. simpl. by rewrite <- app_assoc. }
    split; [done|]. intros Hr. destruct (Hok Hr) as [-> Hins]. split; [done|].
    intros t Ht. rewrite Ht in Ht1. injection Ht1 as <-.
    destruct (Hins (with_rows (tbl_rows t ++ r1) t)) as (rs & Hrs & Htab).
    { by rewrite lookup_insert_eq. }
    exists (r1 ++ rs). split.
    + by apply insert_rows_app.
    + rewrite Htab. simpl. rewrite insert_insert_eq. unfold with_rows. simpl.
      by rewrite <- app_assoc.
Qed.

(** * What an accepted statement did *)

Lemma sql_create_table_copy_inv db d :
  sql_create_table_copy db = inr d ->
  etl_logs d = etl_logs db /\ exists t, tables d !! target_table = Some t.
Proof.
  unfold sql_create_table_copy.
  destruct (tables db !! target_table) as [t|] eqn:Ht.
  - intros [= <-]. eauto.
  - destruct (tables db !! source_table) as [src|]; [|done].
    intros [= <-]. split; [done|]. exists (like src). simpl.
    by rewrite lookup_insert_eq.
Qed.

Lemma sql_truncate_inv db d :
  sql_truncate db = inr d ->
  exists t, tables db !! target_table = Some t
    /\ d = set_table target_table (with_rows [] t) db.
Proof.
  unfold sql_truncate. destruct (tables db !! target_table) as [t|]; [|done].
  intros [= <-]. eauto.
Qed.

Lemma sql_select_all_inv db df :
  sql_select_all db = inr df ->
  exists t, tables db !! source_table = Some t
    /\ df = {| columns := map col_name (tbl_columns t); to_numpy := tbl_rows t |}.
Proof.
  unfold sql_select_all. destruct (tables db !! source_table) as [t|]; [|done].
  intros [= <-]. eauto.
Qed.

(** * Running the scripts symbolically *)

Local Opaque String.append pretty.

Ltac case_on t := match goal with |- context [t] => destruct t eqn:? end.

Ltac unfold_script :=
  unfold script_body, script_handler, run_script,
    import_f101_from_csv, import_body, import_handler,
    export_f101_to_csv, export_body, export_handler, close_connection,
    create_connection, create_table_copy, log_import_start, log_import_end,
    log_export_start, log_export_end, pd_read_sql, df_to_csv,
    pd_read_csv, path_exists, execute_batch,
    try_finally, try_except, bind, ret, raise, connect, execute,
    execute_insert_log, commit, rollback, close, logger_info, logger_error,
    datetime_now, get_locals, set_conn, set_log_id, enter,
    emit, with_durable, with_session, with_log_seq, with_files, with_clock,
    with_logged, with_trace, with_history, with_locals.

Ltac run_pages :=
  match goal with
  | |- context [execute_pages ?f ?c ?k ?p ?s] =>
      let r := fresh "r" in
      let sp := fresh "sp" in
      let Hp := fresh "Hpages" in
      destruct (execute_pages f c k p s) as [r sp] eqn:Hp;
      apply execute_pages_shape in Hp as (? & ? & -> & ? & ?);
      destruct r as [?|[]];
      [| match goal with
         | H : inr () = inr () -> _ |- _ =>
             destruct (H eq_refl) as [-> ?]; clear H; rewrite ?firstn_all
         end ]
  end.

(** One case split on the next call that can fail, in program order. *)
Ltac step fault read_csv :=
  first
    [ case_on (fault Connect)
    | case_on (fault CreateExec)
    | match goal with |- context [sql_create_table_copy ?d] =>
        let H := fresh "Hcreate" in
        destruct (sql_create_table_copy d) eqn:H;
        [| pose proof (sql_create_table_copy_inv _ _ H) as (? & ? & ?) ] end
    | case_on (fault CreateCommit)
    | case_on (fault StartExec)
    | case_on (fault StartCommit)
    | case_on (fault ReadSql)
    | match goal with |- context [sql_select_all ?d] =>
        let H := fresh "Hselect" in
        destruct (sql_select_all d) eqn:H;
        [| apply sql_select_all_inv in H as (? & ? & ->) ] end
    | case_on (fault ToCsv)
    | match goal with |- context [files ?s !! input_file] =>
        destruct (files s !! input_file) eqn:? end
    | match goal with |- context [read_csv ?t] =>
        destruct (read_csv t) eqn:? end
    | case_on (fault TruncateExec)
    | match goal with |- context [sql_truncate ?d] =>
        let H := fresh "Htruncate" in
        destruct (sql_truncate d) eqn:H;
        [| apply sql_truncate_inv in H as (? & ? & ->) ] end
    | case_on (fault TruncateCommit)
    | run_pages
    | case_on (fault (EndExec "completed"))
    | case_on (fault (EndCommit "completed"))
    | case_on (fault (EndExec "failed"))
    | case_on (fault (EndCommit "failed")) ];
  simpl.

Ltac norm_new :=
  unfold new_events, new_commits; simpl;
  rewrite <- ?app_assoc, ?drop_app_length, ?drop_all; simpl.

Lemma in_ledger_last (l : list run_record) (r : run_record) :
  exists r', r' ∈ l ++ [r] /\ log_id r' = log_id r.
Proof. exists r. split; [|done]. apply elem_of_app. right. by apply list_elem_of_singleton. Qed.

Lemma in_ledger_update finish st n err id (l : list run_record) :
  (exists r, r ∈ l /\ log_id r = id) ->
  exists r, r ∈ map (fun r => if decide (log_id r = id)
                             then close_record finish st n err r else r) l
            /\ log_id r = id.
Proof.
  intros (r & Hin & Hid).
  exists (close_record finish st n err r). split; [|done].
  apply list_elem_of_fmap. exists r. split; [|done]. by rewrite decide_True.
Qed.

(** Once [log_id] is bound the connection is bound too, the identifier is
    the one the sequence held on entry, and the transaction in progress
    sees a record with it. *)
Lemma body_bound fault to_csv read_csv p s r s1 id :
  script_body fault to_csv read_csv p (enter s) = (r, s1) ->
  l_log_id (locals s1) = Some id ->
  l_conn (locals s1) = true /\ id = log_seq s
  /\ exists rec, rec ∈ etl_logs (session s1) /\ log_id rec = id.
Proof.
  destruct p; unfold_script; simpl.
  all: repeat (step fault read_csv).
  all: intros [= <- <-]; simpl; try done.
  all: intros [= <-]; split; [done|]; split; [done|].
  all: repeat match goal with H : etl_logs _ = _ |- _ => rewrite H; clear H end; simpl.
  all: try apply in_ledger_last.
  all: try (apply in_ledger_update; apply in_ledger_last).
Qed.

(** Before [log_id] is bound the body can only raise, and what it did
    left the ledger alone. *)
Lemma body_unbound fault to_csv read_csv p s r s1 :
  script_body fault to_csv read_csv p (enter s) = (r, s1) ->
  l_log_id (locals s1) = None ->
  (exists e, r = inl e)
  /\ etl_logs (durable s1) = etl_logs (durable s)
  /\ (exists evs, trace s1 = trace s ++ evs /\ filter is_update_log evs = [])
  /\ (exists cs, history s1 = history s ++ cs
                 /\ Forall (fun db => etl_logs db = etl_logs (durable s)) cs).
Proof.
  destruct p; unfold_script; simpl.
  all: repeat (step fault read_csv).
  all: intros [= <- <-]; simpl; try done.
  all: intros _; split; [eauto|]; split; [done|].
  all: rewrite <- ?app_assoc; simpl.
  all: split; [eexists; split; [reflexivity|reflexivity]|].
  all: try (exists []; rewrite app_nil_r; split; [reflexivity|constructor]; fail).
  all: eexists; split; [reflexivity|]; repeat constructor; done.
Qed.

(** * The exception handler and the finally block *)

Lemma run_script_unfold fault to_csv read_csv p s :
  run_script fault to_csv read_csv p s =
  try_finally (try_except (script_body fault to_csv read_csv p)
                          (script_handler fault p))
              close_connection (enter s).
Proof. by destruct p. Qed.

Lemma finish_unbound fault to_csv read_csv p s e s1 :
  script_body fault to_csv read_csv p (enter s) = (inl e, s1) ->
  l_log_id (locals s1) = None ->
  exists s' evs, run_script fault to_csv read_csv p s = (inl e, s')
    /\ durable s' = durable s1 /\ history s' = history s1
    /\ trace s' = trace s1 ++ evs /\ filter is_update_log evs = [].
Proof.
  intros Hb Hid. rewrite run_script_unfold.
  unfold try_finally, try_except. rewrite Hb.
  destruct p; unfold_script; simpl; rewrite Hid.
  all: destruct (l_conn (locals s1)) eqn:Hc; simpl; rewrite ?Hc; simpl.
  all: eexists; eexists; split; [reflexivity|]; simpl.
  all: split; [done|]; split; [done|].
  all: first [ split; [reflexivity|reflexivity]
             | split; [symmetry; apply app_nil_r|reflexivity] ].
Qed.


Lemma finish_bound_ko fault to_csv read_csv p s e s1 id e2 :
  script_body fault to_csv read_csv p (enter s) = (inl e, s1) ->
  l_conn (locals s1) = true ->
  l_log_id (locals s1) = Some id ->
  fault (EndExec "failed") = Some e2
  \/ (fault (EndExec "failed") = None /\ fault (EndCommit "failed") = Some e2) ->
  exists s', run_script fault to_csv read_csv p s = (inl e2, s')
    /\ durable s' = durable s1
    /\ failure_line p e ∈ logged s'
    /\ ledger_failure_line p e2 ∈ logged s'.
Proof.
  intros Hb Hc Hid Hf. rewrite run_script_unfold.
  unfold try_finally, try_except. rewrite Hb.
  destruct Hf as [He|[He Hk]].
  all: destruct p; unfold_script; simpl; rewrite Hc, Hid, He; simpl;
    rewrite ?Hk; simpl; rewrite Hc; simpl.
  all: eexists; split; [reflexivity|]; simpl; split; [done|].
  all: unfold failure_line, ledger_failure_line; set_solver.
Qed.


(** * Runs that complete normally *)

Lemma handler_raises fault p e s :
  exists e' s', script_handler fault p e s = (inl e', s').
Proof.
  destruct p; unfold_script; simpl.
  all: destruct (l_conn (locals s)); simpl; eauto.
  all: destruct (l_log_id (locals s)); simpl; eauto.
  all: destruct (fault (EndExec "failed")); simpl; eauto.
  all: destruct (fault (EndCommit "failed")); simpl; eauto.
Qed.

(** A run returns only if its [try] block returned: the handler always
    raises. *)
Lemma run_returns fault to_csv read_csv p s s' :
  run_script fault to_csv read_csv p s = (inr tt, s') ->
  exists s1, script_body fault to_csv read_csv p (enter s) = (inr tt, s1)
    /\ close_connection s1 = (inr tt, s').
Proof.
  rewrite run_script_unfold. unfold try_finally, try_except.
  destruct (script_body fault to_csv read_csv p (enter s)) as [[e|[]] s1].
  - destruct (handler_raises fault p e s1) as (e' & s2 & ->).
    destruct (close_connection s2) as [[?|?] ?]; intros [=].
  - destruct (close_connection s1) as [[?|[]] ?] eqn:Hc; intros [= <-]. eauto.
Qed.

Lemma export_success fault to_csv s s' :
  export_f101_to_csv fault to_csv s = (inr tt, s') ->
  exists src,
    tables (durable s) !! source_table = Some src /\
    let df := {| columns := map col_name (tbl_columns src);
                 to_numpy := tbl_rows src |} in
    let d1 := sql_insert_log (log_seq s) "dm.dm_f101_round_f" (clock s)
                             "started" 0 (durable s) in
    let upd := UpdateLog (S (clock s)) "completed" (Z.of_nat (len df)) None
                         (log_seq s) in
    durable s' = sql_update_log (S (clock s)) "completed" (Z.of_nat (len df))
                                None (log_seq s) d1
    /\ files s' = <[output_file := to_csv df]> (files s)
    /\ new_commits s s' = [d1; durable s']
    /\ new_events s s' =
         [EvConnect;
          EvExecute (InsertLog "dm.dm_f101_round_f" (clock s) "started" 0);
          EvCommit; EvExecute SelectAll; EvToCsv output_file;
          EvExecute upd; EvCommit; EvClose].
Proof.
  intros Hrun.
  apply (run_returns fault to_csv plain_read_csv Export) in Hrun
    as (s1 & Hbody & Hclose).
  revert Hbody. unfold_script; simpl.
  repeat (step fault plain_read_csv).
  all: try (intros [=]; fail).
  intros [= <-]. revert Hclose. unfold_script; simpl. intros [= <-].
  eexists. split; [eassumption|]. simpl.
  split; [done|]. split; [done|]. split; norm_new; done.
Qed.

Lemma import_success fault read_csv s s' :
  import_f101_from_csv fault read_csv s = (inr tt, s') ->
  exists text df d t rs,
    files s !! input_file = Some text /\
    read_csv text = inr df /\
    sql_create_table_copy (durable s) = inr d /\
    tables d !! target_table = Some t /\
    insert_rows (tbl_columns t) (columns df) (data_tuples df) = inr rs /\
    let d1 := sql_insert_log (log_seq s) "dm.dm_f101_round_f_v2" (clock s)
                             "started" 0 d in
    let d2 := set_table target_table (with_rows [] t) d1 in
    let n := Z.of_nat (length (data_tuples df)) in
    tables (durable s') = <[target_table := with_rows rs t]> (tables d)
    /\ etl_logs (durable s') =
         etl_logs (sql_update_log (S (clock s)) "completed" n None (log_seq s) d1)
    /\ files s' = files s
    /\ new_commits s s' = [d; d1; d2; durable s']
    /\ new_events s s' =
         [EvConnect; EvExecute CreateTableCopy; EvCommit;
          EvExecute (InsertLog "dm.dm_f101_round_f_v2" (clock s) "started" 0);
          EvCommit; EvExists input_file; EvReadCsv input_file;
          EvExecute Truncate; EvCommit]
         ++ page_events (columns df) (paginate (data_tuples df) 1000)
         ++ [EvExecute (UpdateLog (S (clock s)) "completed" n None (log_seq s));
             EvCommit; EvClose].
Proof.
  intros Hrun.
  apply (run_returns fault plain_to_csv read_csv Import) in Hrun
    as (s1 & Hbody & Hclose).
  revert Hbody. unfold_script; simpl.
  repeat (step fault read_csv).
  all: try (intros [=]; fail).
  intros [= <-]. revert Hclose. unfold_script; simpl. intros [= <-].
  simpl in *.
  match goal with
  | Ht : tables ?d !! target_table = Some ?t,
    Ht' : tables ?d !! target_table = Some ?t' |- _ =>
      rewrite Ht in Ht'; injection Ht' as <-
  end.
  match goal with
  | H : forall t, _ -> exists rs, _ |- _ =>
      edestruct H as (rs & Hrs & Htab); [apply lookup_insert_eq|]
  end.
  simpl in *. rewrite insert_insert_eq in Htab.
  unfold paginate in Hrs. rewrite paginate_from_concat in Hrs. simpl in Hrs.
  match goal with
  | H : Some _ = Some _ |- _ => injection H as ?; subst
  end.
  do 5 eexists.
  split; [reflexivity|]. split; [eassumption|]. split; [reflexivity|].
  split; [eassumption|]. split; [exact Hrs|].
  split; [exact Htab|].
  split. { f_equal. assumption. }
  split; [done|]. split; norm_new; done.
Qed.

(** * Null normalization *)


(** * Provisioning *)

Lemma create_table_copy_run fault s d :
  fault CreateExec = None -> fault CreateCommit = None ->
  sql_create_table_copy (session s) = inr d ->
  exists s1, create_table_copy fault s = (inr tt, s1)
    /\ session s1 = d /\ durable s1 = d.
Proof.
  intros He Hc Hd. unfold_script; simpl. rewrite He, Hd; simpl. rewrite Hc; simpl.
  eexists. split; [reflexivity|]. done.
Qed.

Lemma sql_create_table_copy_again db d :
  sql_create_table_copy db = inr d -> sql_create_table_copy d = inr d.
Proof.
  intros H. destruct (sql_create_table_copy_inv _ _ H) as (_ & t & Ht).
  unfold sql_create_table_copy. by rewrite Ht.
Qed.

(** C6. Provisioning is idempotent.  When the store accepts the statement
    and its commit: on a store where the target table exists the step
    returns and leaves every table as it was; on a store where only the
    reference table exists it creates the target with the reference's
    columns (names, types, defaults) and constraints and no row; and a
    second call right after the first returns too and changes nothing, so
    the store holds the tables it held plus the one target. *)
Theorem create_table_copy_idempotent fault s :
  fault CreateExec = None -> fault CreateCommit = None ->
  is_Some (tables (session s) !! target_table)
    \/ is_Some (tables (session s) !! source_table) ->
  exists s1 s2,
    create_table_copy fault s = (inr tt, s1)
    /\ create_table_copy fault s1 = (inr tt, s2)
    /\ session s2 = session s1 /\ durable s2 = durable s1
    /\ (is_Some (tables (session s) !! target_table) -> session s1 = session s)
    /\ (forall src, tables (session s) !! target_table = None ->
          tables (session s) !! source_table = Some src ->
          exists t, tables (session s1) = <[target_table := t]> (tables (session s))
            /\ tbl_columns t = tbl_columns src
            /\ tbl_constraints t = tbl_constraints src
            /\ tbl_rows t = [])
    /\ dom (tables (session s2)) = {[target_table]} ∪ dom (tables (session s)).
Proof.
  intros He Hc Hex.
  assert (exists d, sql_create_table_copy (session s) = inr d) as [d Hd].
  { unfold sql_create_table_copy.
    destruct (tables (session s) !! target_table); [eauto|].
    destruct Hex as [[? [=]]|[src ->]]. eauto. }
  destruct (create_table_copy_run fault s d He Hc Hd) as (s1 & H1 & Hs1 & Hd1).
  destruct (create_table_copy_run fault s1 d He Hc) as (s2 & H2 & Hs2 & Hd2).
  { rewrite Hs1. exact (sql_create_table_copy_again _ _ Hd). }
  exists s1, s2. split; [done|]. split; [done|].
  split; [congruence|]. split; [congruence|].
  revert Hd. unfold sql_create_table_copy.
  destruct (tables (session s) !! target_table) as [t|] eqn:Ht.
  - intros [= <-]. split; [by intros _; rewrite Hs1|].
    split; [by intros src [=]|].
    rewrite Hs2. apply set_eq. intros k.
    rewrite elem_of_union, elem_of_singleton, !elem_of_dom.
    split; [by right|]. intros [->|?]; [by rewrite Ht|done].
  - destruct (tables (session s) !! source_table) as [src|] eqn:Hsrc; [|done].
    intros [= <-]. split; [by intros [? [=]]|].
    split.
    + intros src' _ [= <-]. exists (like src). by rewrite Hs1.
    + rewrite Hs2. simpl. by rewrite dom_insert_L.
Qed.

Lemma create_table_copy_idempotent_witness :
  exists s1 s2,
    create_table_copy no_fault (initial_state sample_db 1 ∅) = (inr tt, s1)
    /\ create_table_copy no_fault s1 = (inr tt, s2)
    /\ session s2 = session s1.
Proof.
  destruct (create_table_copy_idempotent no_fault (initial_state sample_db 1 ∅))
    as (s1 & s2 & H1 & H2 & H3 & _).
  - reflexivity.
  - reflexivity.
  - right. vm_compute. eauto.
  - exists s1, s2. auto.
Defined.

(** * Failures before the ledger begin *)

(** C10. A run whose [try] block raises while [log_id] is still unbound
    (the connection, the provisioning or the ledger begin failed) raises
    that same error to its caller, sends no [UPDATE] to the ledger, and
    leaves in every state it committed, the last one included, the ledger
    it found. *)
Theorem no_ledger_record_before_begin fault to_csv read_csv p s e s1 :
  script_body fault to_csv read_csv p (enter s) = (inl e, s1) ->
  l_log_id (locals s1) = None ->
  exists s', run_script fault to_csv read_csv p s = (inl e, s')
    /\ filter is_update_log (new_events s s') = []
    /\ Forall (fun db => etl_logs db = etl_logs (durable s)) (new_commits s s')
    /\ etl_logs (durable s') = etl_logs (durable s).
Proof.
  intros Hb Hid.
  destruct (body_unbound _ _ _ _ _ _ _ Hb Hid)
    as (_ & Hled & (evs & Htr & Hevs) & (cs & Hh & Hcs)).
  destruct (finish_unbound _ _ _ _ _ _ _ Hb Hid)
    as (s' & evs' & Hrun & Hd & Hh' & Htr' & Hevs').
  exists s'. split; [done|]. split; [|split].
  - unfold new_events. rewrite Htr', Htr, <- app_assoc, drop_app_length.
    by rewrite filter_app, Hevs, Hevs'.
  - unfold new_commits. by rewrite Hh', Hh, drop_app_length.
  - by rewrite Hd.
Qed.

Lemma no_ledger_record_before_begin_witness :
  exists s', run_script (faults_at [(StartCommit, ledger_down)]) plain_to_csv
                        plain_read_csv Import missing_file_state
             = (inl ledger_down, s')
    /\ etl_logs (durable s') = [].
Proof.
  destruct (no_ledger_record_before_begin
              (faults_at [(StartCommit, ledger_down)]) plain_to_csv
              plain_read_csv Import missing_file_state ledger_down
              (snd (script_body (faults_at [(StartCommit, ledger_down)])
                      plain_to_csv plain_read_csv Import
                      (enter missing_file_state))))
    as (s' & Hrun & _ & _ & Hled).
  - vm_compute. reflexivity.
  - vm_compute. reflexivity.
  - exists s'. split; [exact Hrun|exact Hled].
Defined.

(** The three causes the ledger begin can fail for leave [log_id]
    unbound. *)
Lemma begin_failure_leaves_log_id_unbound fault to_csv read_csv p s :
  is_Some (fault Connect) \/ is_Some (fault StartExec)
    \/ is_Some (fault StartCommit)
    \/ (p = Import /\ (is_Some (fault CreateExec) \/ is_Some (fault CreateCommit))) ->
  exists e s1, script_body fault to_csv read_csv p (enter s) = (inl e, s1)
    /\ l_log_id (locals s1) = None.
Proof.
  intros H. destruct p; unfold_script; simpl.
  all: repeat (step fault read_csv).
  all: try (eexists; eexists; split; [reflexivity|reflexivity]).
  all: exfalso; destruct H as [[? ?]|[[? ?]|[[? ?]|[? [[? ?]|[? ?]]]]]]; congruence.
Qed.

(** * Failures after the ledger begin *)





(** C4, as the code has it.  When the [try] block raised after the ledger
    begin returned and the handler's own ledger update is rejected (at the
    statement or at its commit), both failures are logged, the committed
    store is left as the block left it, and the error the run raises to
    its caller is the ledger error: [log_export_end] and [log_import_end]
    re-raise, and the handler's own [raise] is never reached. *)
Theorem ledger_failure_replaces_error fault to_csv read_csv p s e s1 id e2 :
  script_body fault to_csv read_csv p (enter s) = (inl e, s1) ->
  l_log_id (locals s1) = Some id ->
  fault (EndExec "failed") = Some e2
    \/ (fault (EndExec "failed") = None /\ fault (EndCommit "failed") = Some e2) ->
  exists s',
    run_script fault to_csv read_csv p s = (inl e2, s')
    /\ durable s' = durable s1
    /\ failure_line p e ∈ logged s'
    /\ ledger_failure_line p e2 ∈ logged s'.
Proof.
  intros Hb Hid Hf.
  destruct (body_bound _ _ _ _ _ _ _ _ Hb Hid) as (Hconn & _ & _).
  exact (finish_bound_ko _ _ _ _ _ _ _ _ _ Hb Hconn Hid Hf).
Qed.

Lemma ledger_failure_replaces_error_witness :
  exists s',
    run_script (faults_at [(ReadSql, read_failed);
                           (EndCommit "failed", ledger_down)])
               plain_to_csv plain_read_csv Export missing_file_state
    = (inl ledger_down, s').
Proof.
  destruct (ledger_failure_replaces_error
              (faults_at [(ReadSql, read_failed);
                          (EndCommit "failed", ledger_down)])
              plain_to_csv plain_read_csv Export missing_file_state
              read_failed
              (snd (script_body
                      (faults_at [(ReadSql, read_failed);
                                  (EndCommit "failed", ledger_down)])
                      plain_to_csv plain_read_csv Export
                      (enter missing_file_state)))
              1 ledger_down)
    as (s' & Hrun & _).
  - vm_compute. reflexivity.
  - vm_compute. reflexivity.
  - right. split; reflexivity.
  - exists s'. exact Hrun.
Defined.

(** C4 as stated fails: the export's read is rejected after the begin
    returned, the commit of the handler's update is rejected too, and the
    error that reaches the caller is the ledger's, not the read's. *)
Lemma original_error_masked_counterexample :
  exists s1,
    export_body (faults_at [(ReadSql, read_failed);
                            (EndCommit "failed", ledger_down)])
                plain_to_csv (enter missing_file_state)
    = (inl read_failed, s1)
    /\ l_log_id (locals s1) = Some 1%Z
    /\ fst (export_f101_to_csv
              (faults_at [(ReadSql, read_failed);
                          (EndCommit "failed", ledger_down)])
              plain_to_csv missing_file_state)
       = inl ledger_down
    /\ ledger_down <> read_failed.
Proof.
  eexists. split; [vm_compute; reflexivity|].
  split; [vm_compute; reflexivity|].
  split; [vm_compute; reflexivity|discriminate].
Qed.

(** * The missing input file *)

Ltac not_in H :=
  repeat (apply elem_of_cons in H as [H|H]; [discriminate H|]);
  by apply elem_of_nil in H.

(** C2, as the code has it.  When the input file does not exist the import
    raises and never truncates or inserts into the target table.  The
    existence check is not the first step: a run that reaches it has
    already connected, provisioned the target and inserted the ledger
    started record, each committed; the check then makes the [try] block
    raise FileNotFoundError. *)
Theorem missing_input_checked_after_begin fault read_csv s :
  files s !! input_file = None ->
  exists e s',
    import_f101_from_csv fault read_csv s = (inl e, s')
    /\ filter is_table_write (new_events s s') = []
    /\ (EvExists input_file ∈ new_events s s' ->
        exists d s1,
          sql_create_table_copy (durable s) = inr d
          /\ import_body fault read_csv (enter s)
             = (inl (Exn "FileNotFoundError"
                         ("Файл " +:+ input_file +:+ " не найден")), s1)
          /\ before_check (new_events s s')
             = [EvConnect; EvExecute CreateTableCopy; EvCommit;
                EvExecute (InsertLog "dm.dm_f101_round_f_v2" (clock s)
                                     "started" 0);
                EvCommit]
          /\ take 2 (new_commits s s')
             = [d; sql_insert_log (log_seq s) "dm.dm_f101_round_f_v2"
                                  (clock s) "started" 0 d]).
Proof.
  intros Hf. unfold_script; simpl.
  repeat (step fault read_csv; rewrite ?Hf; simpl).
  all: try congruence.
  all: eexists; eexists; split; [reflexivity|].
  all: norm_new; split; [reflexivity|].
  all: intros Hin; try (not_in Hin).
  all: eexists; eexists; split; [reflexivity|]; split; [reflexivity|].
  all: split; reflexivity.
Qed.

Lemma missing_input_checked_after_begin_witness :
  exists e s',
    import_f101_from_csv no_fault plain_read_csv missing_file_state = (inl e, s')
    /\ filter is_table_write (new_events missing_file_state s') = [].
Proof.
  destruct (missing_input_checked_after_begin no_fault plain_read_csv
              missing_file_state)
    as (e & s' & Hrun & Hw & _).
  - reflexivity.
  - exists e, s'. auto.
Defined.

(** C2 as stated fails: with no input file on disk, the statements the
    import sends to the store before it checks for the file are the
    provisioning and the ledger insert, and both are committed by then. *)
Lemma missing_input_check_counterexample :
  files missing_file_state !! input_file = None
  /\ filter is_store_write
       (before_check
          (new_events missing_file_state
             (snd (import_f101_from_csv no_fault plain_read_csv
                     missing_file_state))))
     = [EvExecute CreateTableCopy;
        EvExecute (InsertLog "dm.dm_f101_round_f_v2" 0 "started" 0)]
  /\ status_history 1
       (take 2 (new_commits missing_file_state
                  (snd (import_f101_from_csv no_fault plain_read_csv
                          missing_file_state))))
     = ["started"].
Proof.
  split; [reflexivity|]. split; vm_compute; reflexivity.
Qed.

(** * Ledger completeness *)

Lemma filter_fresh (id : Z) (l : list run_record) :
  Forall (fun r => (log_id r < id)%Z) l ->
  filter (fun r => log_id r = id) l = [].
Proof.
  induction 1 as [|r l Hr _ IH]; [done|].
  rewrite filter_cons_False by lia. exact IH.
Qed.

Lemma update_fresh finish st n err (id : Z) (l : list run_record) :
  Forall (fun r => (log_id r < id)%Z) l ->
  map (fun r => if decide (log_id r = id)
                then close_record finish st n err r else r) l = l.
Proof.
  induction 1 as [|r l Hr _ IH]; [done|]. simpl.
  rewrite decide_False by lia. by rewrite IH.
Qed.

Lemma find_run_new id tn start st n db :
  Forall (fun r => (log_id r < id)%Z) (etl_logs db) ->
  status <$> find_run id (sql_insert_log id tn start st n db) = Some st.
Proof.
  intros Hf. unfold find_run, sql_insert_log; simpl.
  rewrite filter_app, (filter_fresh _ _ Hf). simpl.
  by rewrite filter_cons_True.
Qed.

Lemma find_run_absent id db :
  Forall (fun r => (log_id r < id)%Z) (etl_logs db) ->
  find_run id db = None.
Proof. intros Hf. unfold find_run. by rewrite (filter_fresh _ _ Hf). Qed.

Lemma update_new finish st n err id tn start db :
  Forall (fun r => (log_id r < id)%Z) (etl_logs db) ->
  etl_logs (sql_update_log finish st n err id
              (sql_insert_log id tn start "started" 0 db))
  = etl_logs db ++
    [ {| log_id := id; table_name := tn; start_time := start;
         end_time := Some finish; status := st; records_processed := n;
         error_message := err |} ].
Proof.
  intros Hf. unfold sql_update_log, sql_insert_log; simpl.
  rewrite map_app, (update_fresh _ _ _ _ _ _ Hf). simpl.
  by rewrite decide_True.
Qed.

Lemma find_run_closed id l r db :
  etl_logs db = l ++ [r] ->
  Forall (fun r => (log_id r < id)%Z) l -> log_id r = id ->
  find_run id db = Some r.
Proof.
  intros Hdb Hf Hid. unfold find_run. rewrite Hdb.
  rewrite filter_app, (filter_fresh _ _ Hf). simpl.
  by rewrite filter_cons_True.
Qed.

Lemma export_ledger fault to_csv s s' :
  fresh_ids s ->
  export_f101_to_csv fault to_csv s = (inr tt, s') ->
  exists r,
    etl_logs (durable s') = etl_logs (durable s) ++ [r]
    /\ log_id r = log_seq s /\ table_name r = ledger_name Export
    /\ status r = "completed" /\ error_message r = None
    /\ is_Some (end_time r)
    /\ records_processed r = Z.of_nat (rows_moved Export s s')
    /\ status_history (log_seq s) (new_commits s s') = expected_progress Export.
Proof.
  intros Hfresh Hrun.
  destruct (export_success _ _ _ _ Hrun) as (src & Hsrc & Hd & _ & Hc & _).
  simpl in *.
  pose proof (update_new (S (clock s)) "completed"
                (Z.of_nat (length (tbl_rows src))) None (log_seq s)
                "dm.dm_f101_round_f" (clock s) (durable s) Hfresh) as Hupd.
  unfold len in Hd; simpl in Hd. rewrite <- Hd in Hupd.
  eexists. split; [exact Hupd|]. simpl.
  do 5 (split; [eauto|]). split.
  - unfold rows_of. by rewrite Hsrc.
  - rewrite Hc. unfold status_history. simpl.
    rewrite (find_run_new _ _ _ _ _ _ Hfresh). simpl.
    by rewrite (find_run_closed _ _ _ _ Hupd Hfresh eq_refl).
Qed.

Lemma import_ledger fault read_csv s s' :
  fresh_ids s ->
  import_f101_from_csv fault read_csv s = (inr tt, s') ->
  exists r,
    etl_logs (durable s') = etl_logs (durable s) ++ [r]
    /\ log_id r = log_seq s /\ table_name r = ledger_name Import
    /\ status r = "completed" /\ error_message r = None
    /\ is_Some (end_time r)
    /\ records_processed r = Z.of_nat (rows_moved Import s s')
    /\ status_history (log_seq s) (new_commits s s') = expected_progress Import.
Proof.
  intros Hfresh Hrun.
  destruct (import_success _ _ _ _ Hrun)
    as (text & df & d & t & rs & _ & _ & Hcreate & Ht & Hrs & Htab & Hled & _ & Hc & _).
  destruct (sql_create_table_copy_inv _ _ Hcreate) as (Hd & _).
  assert (Hfd : Forall (fun r => (log_id r < log_seq s)%Z) (etl_logs d))
    by (by rewrite Hd).
  pose proof (update_new (S (clock s)) "completed"
                (Z.of_nat (length (data_tuples df))) None (log_seq s)
                "dm.dm_f101_round_f_v2" (clock s) d Hfd) as Hupd.
  rewrite <- Hled, Hd in Hupd.
  eexists. split; [exact Hupd|]. simpl.
  do 5 (split; [eauto|]). split.
  - unfold rows_of. rewrite Htab, lookup_insert_eq. simpl.
    by rewrite (insert_rows_length _ _ _ _ Hrs).
  - rewrite Hc. unfold status_history. simpl.
    rewrite (find_run_absent _ _ Hfd). simpl.
    rewrite (find_run_new _ _ _ _ _ _ Hfd). simpl.
    assert (Hd2 : status <$> find_run (log_seq s)
              (set_table target_table (with_rows [] t)
                 (sql_insert_log (log_seq s) "dm.dm_f101_round_f_v2"
                    (clock s) "started" 0 d)) = Some "started")
      by exact (find_run_new _ _ _ _ _ _ Hfd).
    rewrite Hd2. simpl.
    by rewrite (find_run_closed _ _ _ _ Hupd Hfresh eq_refl).
Qed.

(** C9. Ledger completeness: a run of either script that returns, on a
    store whose ledger holds no identifier at or above the sequence, adds
    exactly one Run Record to the committed ledger and leaves the others
    as they were; the record is completed, without error message, and
    counts the rows read from the source table (export) or held by the
    target table (import); over the states the run committed its status
    went from started to completed. *)
Theorem ledger_complete_on_success fault to_csv read_csv p s s' :
  fresh_ids s ->
  run_script fault to_csv read_csv p s = (inr tt, s') ->
  exists r,
    etl_logs (durable s') = etl_logs (durable s) ++ [r]
    /\ log_id r = log_seq s /\ table_name r = ledger_name p
    /\ status r = "completed" /\ error_message r = None
    /\ is_Some (end_time r)
    /\ records_processed r = Z.of_nat (rows_moved p s s')
    /\ status_history (log_seq s) (new_commits s s') = expected_progress p.
Proof.
  destruct p; simpl.
  - apply export_ledger.
  - apply import_ledger.
Qed.

Lemma ledger_complete_on_success_witness :
  exists r,
    etl_logs (durable (snd (run_script no_fault plain_to_csv plain_read_csv
                              Import ready_state))) = [r]
    /\ status r = "completed" /\ records_processed r = 2%Z.
Proof.
  destruct (ledger_complete_on_success no_fault plain_to_csv plain_read_csv
              Import ready_state
              (snd (run_script no_fault plain_to_csv plain_read_csv
                      Import ready_state)))
    as (r & Hl & _ & _ & Hst & _ & _ & Hn & _).
  - constructor.
  - vm_compute. reflexivity.
  - exists r. split; [exact Hl|]. split; [exact Hst|]. exact Hn.
Defined.

(** * The bulk load *)

Lemma filter_page_events cols pages :
  filter is_insert_page (page_events cols pages) = page_events cols pages.
Proof.
  induction pages as [|p pages IH]; [done|]. simpl.
  rewrite filter_cons_True by done. by rewrite IH.
Qed.

Lemma paginate_batched {A} (l : list A) : batched 1000 (paginate l 1000).
Proof. apply paginate_from_batched; simpl; lia. Qed.

(** C8. An import that returns has sent every tuple of the parsed buffer
    to the store: its insert statements are the pages of the tuples, cut
    1000 at a time (every page full but the last, none empty), in order,
    each naming the buffer's columns as the target column list; the
    committed target table holds the rows these inserts bind by name, as
    many as the buffer has; and the Run Record written last carries that
    count. *)
Theorem load_inserts_all_rows_in_batches fault read_csv s s' :
  import_f101_from_csv fault read_csv s = (inr tt, s') ->
  exists text df t r,
    files s !! input_file = Some text
    /\ read_csv text = inr df
    /\ filter is_insert_page (new_events s s')
       = page_events (columns df) (paginate (data_tuples df) 1000)
    /\ concat (paginate (data_tuples df) 1000) = data_tuples df
    /\ batched 1000 (paginate (data_tuples df) 1000)
    /\ tables (durable s') !! target_table = Some t
    /\ insert_rows (tbl_columns t) (columns df) (data_tuples df)
       = inr (tbl_rows t)
    /\ length (tbl_rows t) = len df
    /\ last (etl_logs (durable s')) = Some r
    /\ records_processed r = Z.of_nat (len df).
Proof.
  intros Hrun.
  destruct (import_success _ _ _ _ Hrun)
    as (text & df & d & t & rs & Hf & Hr & _ & _ & Hrs & Htab & Hled & _ & _ & Hev).
  cbv zeta in *.
  assert (Hlen : length (data_tuples df) = len df)
    by (unfold data_tuples, len; by rewrite length_map).
  exists text, df, (with_rows rs t). eexists.
  split; [done|]. split; [done|]. split.
  { rewrite Hev, !filter_app, filter_page_events. simpl.
    by rewrite app_nil_r. }
  split; [apply paginate_from_concat|]. split; [apply paginate_batched|].
  split; [by rewrite Htab, lookup_insert_eq|]. split; [exact Hrs|].
  split; [simpl; by rewrite (insert_rows_length _ _ _ _ Hrs)|].
  rewrite Hled. unfold sql_update_log, sql_insert_log. simpl.
  rewrite map_app. simpl. rewrite last_snoc.
  rewrite decide_True by done. split; [reflexivity|]. simpl. by rewrite Hlen.
Qed.

Lemma load_inserts_all_rows_in_batches_witness :
  exists t,
    tables (durable (snd (import_f101_from_csv no_fault plain_read_csv
                            ready_state))) !! target_table = Some t
    /\ length (tbl_rows t) = 2.
Proof.
  destruct (load_inserts_all_rows_in_batches no_fault plain_read_csv
              ready_state
              (snd (import_f101_from_csv no_fault plain_read_csv ready_state)))
    as (text & df & t & r & Hf & Hr & _ & _ & _ & Ht & _ & Hlen & _).
  - vm_compute. reflexivity.
  - exists t. split; [exact Ht|]. rewrite Hlen.
    vm_compute in Hf. injection Hf as <-.
    vm_compute in Hr. injection Hr as <-. reflexivity.
Defined.

(** * Transactions *)

Lemma transactions_pages cols pages : forall cur rest,
  transactions cur (page_events cols pages ++ rest)
  = transactions (cur ++ map (InsertPage cols) pages) rest.
Proof.
  induction pages as [|p pages IH]; intros cur rest; simpl.
  - by rewrite app_nil_r.
  - rewrite IH. by rewrite <- app_assoc.
Qed.

(** C5, evaluated on the code.  In an import that returns, the connection
    commits four transactions: the provisioning, the ledger begin, the
    truncate, and a last one that holds every bulk insert together with
    the closing ledger update.  No commit stands between the inserts and
    that update, so the state committed before the last one still has an
    empty target table. *)
Theorem bulk_insert_commits_with_ledger_update fault read_csv s s' :
  import_f101_from_csv fault read_csv s = (inr tt, s') ->
  exists df finish n d1 d2 d3,
    transactions [] (new_events s s')
    = [ ([CreateTableCopy], true);
        ([InsertLog "dm.dm_f101_round_f_v2" (clock s) "started" 0], true);
        ([Truncate], true);
        (map (InsertPage (columns df)) (paginate (data_tuples df) 1000)
           ++ [UpdateLog finish "completed" n None (log_seq s)], true) ]
    /\ new_commits s s' = [d1; d2; d3; durable s']
    /\ rows_of target_table d3 = 0.
Proof.
  intros Hrun.
  destruct (import_success _ _ _ _ Hrun)
    as (text & df & d & t & rs & _ & _ & _ & Ht & _ & _ & _ & _ & Hc & Hev).
  cbv zeta in *.
  exists df. do 5 eexists. split; [|split; [exact Hc|]].
  - rewrite Hev. simpl. rewrite transactions_pages. simpl. reflexivity.
  - unfold rows_of. simpl. by rewrite lookup_insert_eq.
Qed.

Lemma bulk_insert_commits_with_ledger_update_witness :
  exists txs,
    transactions [] (new_events ready_state
                       (snd (import_f101_from_csv no_fault plain_read_csv
                               ready_state))) = txs
    /\ length txs = 4.
Proof.
  destruct (bulk_insert_commits_with_ledger_update no_fault plain_read_csv
              ready_state
              (snd (import_f101_from_csv no_fault plain_read_csv ready_state)))
    as (df & finish & n & d1 & d2 & d3 & Htx & _).
  - vm_compute. reflexivity.
  - eexists. split; [exact Htx|]. reflexivity.
Defined.

(** What rides on that shared transaction: when the commit of the closing
    update is rejected, its rollback discards the rows of a bulk insert
    the store had accepted in full. *)
Lemma accepted_rows_lost_with_ledger_commit :
  filter is_insert_page
    (new_events ready_state
       (snd (import_f101_from_csv
               (faults_at [(EndCommit "completed", ledger_down)])
               plain_read_csv ready_state)))
  = [EvExecute
       (InsertPage ["chapter"; "ledger_account"; "characteristic"]
          [[PyStr "A"; PyStr "10201"; PyStr "P"];
           [PyStr "B"; PyStr "20202"; PyNone]])]
  /\ rows_of target_table
       (durable (snd (import_f101_from_csv
                        (faults_at [(EndCommit "completed", ledger_down)])
                        plain_read_csv ready_state))) = 0.
Proof. split; vm_compute; reflexivity. Qed.

(** * Round trip *)








(** * The connection *)

Lemma last_drop_snoc {A} (n : nat) (l : list A) (x : A) :
  n <= length l -> last (drop n (l ++ [x])) = Some x.
Proof.
  intros Hn. rewrite drop_app_le by done. apply last_snoc.
Qed.

Lemma filter_close_pages cols pages :
  filter is_close (page_events cols pages) = [].
Proof.
  induction pages as [|p pages IH]; [done|]. simpl.
  rewrite filter_cons_False by (intros Hfalse; exact Hfalse). exact IH.
Qed.

(** Whatever happens after the connection was obtained, the run closes
    it, once and as its last action on the store, logs that it did, and
    leaves no uncommitted work behind. *)
Theorem connection_always_released fault to_csv read_csv p s :
  fault Connect = None ->
  last (new_events s (snd (run_script fault to_csv read_csv p s)))
    = Some EvClose
  /\ length (filter is_close
               (new_events s (snd (run_script fault to_csv read_csv p s)))) = 1
  /\ session (snd (run_script fault to_csv read_csv p s))
     = durable (snd (run_script fault to_csv read_csv p s))
  /\ last (logged (snd (run_script fault to_csv read_csv p s)))
     = Some closed_line.
Proof.
  intros Hc. destruct p; unfold_script; simpl; rewrite Hc; simpl.
  all: repeat (step fault read_csv).
  all: split; [unfold new_events; simpl; apply last_drop_snoc;
               rewrite ?length_app; simpl; lia|].
  all: split; [norm_new;
               repeat (rewrite filter_cons_False by (intros Hfalse; exact Hfalse));
               rewrite ?filter_app, ?filter_close_pages; reflexivity|].
  all: split; [reflexivity|apply last_snoc].
Qed.

Lemma connection_always_released_witness :
  last (new_events missing_file_state
          (snd (run_script no_fault plain_to_csv plain_read_csv Import
                  missing_file_state))) = Some EvClose.
Proof.
  destruct (connection_always_released no_fault plain_to_csv plain_read_csv
              Import missing_file_state) as (H & _).
  - reflexivity.
  - exact H.
Defined.

(** When the store cannot be reached the run does nothing else: it logs
    the failure twice (in [create_connection] and in the handler), raises
    the connection error itself, and neither closes anything nor touches
    the store, the ledger or the files. *)
Theorem connect_failure_touches_nothing fault to_csv read_csv p s e :
  fault Connect = Some e ->
  exists s',
    run_script fault to_csv read_csv p s = (inl e, s')
    /\ new_events s s' = [EvConnect]
    /\ new_logged s s' = [connect_failure_line e; failure_line p e]
    /\ durable s' = durable s
    /\ new_commits s s' = []
    /\ files s' = files s.
Proof.
  intros Hc. destruct p; unfold_script; simpl; rewrite Hc; simpl.
  all: eexists; split; [reflexivity|].
  all: unfold new_logged; norm_new; done.
Qed.

Lemma connect_failure_touches_nothing_witness :
  exists s',
    run_script (faults_at [(Connect, ledger_down)]) plain_to_csv
               plain_read_csv Export missing_file_state
    = (inl ledger_down, s')
    /\ new_events missing_file_state s' = [EvConnect].
Proof.
  destruct (connect_failure_touches_nothing
              (faults_at [(Connect, ledger_down)]) plain_to_csv
              plain_read_csv Export missing_file_state ledger_down)
    as (s' & Hrun & Hev & _).
  - reflexivity.
  - exists s'. auto.
Defined.

(** * The ledger functions on their own *)

(** The ledger begin is all or nothing.  When it returns, the identifier
    is the one the sequence held, and one commit has made durable the
    started record (with whatever else the connection had pending).  When
    it raises, it has rolled back and logged its error: nothing new is
    committed and the connection sees the committed store again. *)
Theorem log_start_all_or_nothing fault p s :
  match script_log_start fault p s with
  | (inr id, s') =>
      id = log_seq s
      /\ durable s' = sql_insert_log id (ledger_name p) (clock s) "started" 0
                                     (session s)
      /\ session s' = durable s'
      /\ new_commits s s' = [durable s']
  | (inl e, s') =>
      (fault StartExec = Some e
       \/ (fault StartExec = None /\ fault StartCommit = Some e))
      /\ durable s' = durable s
      /\ session s' = durable s
      /\ new_commits s s' = []
      /\ last (new_events s s') = Some EvRollback
      /\ last (logged s') = Some (start_failure_line p e)
  end.
Proof.
  destruct p; unfold script_log_start; unfold_script; simpl.
  all: destruct (fault StartExec) eqn:He; simpl.
  all: try destruct (fault StartCommit) eqn:Hc; simpl.
  all: norm_new; rewrite ?last_snoc; repeat split; eauto.
Qed.

(** The ledger end is all or nothing too, for any status it is asked to
    write.  When it returns, one commit has made durable the update of
    the records with that identifier, together with whatever the
    connection had pending.  When it raises, it has rolled back and logged
    its error: nothing is committed, and work the connection had pending
    is discarded with the update. *)
Theorem log_end_all_or_nothing fault p id st n err s :
  match script_log_end fault p id st n err s with
  | (inr _, s') =>
      durable s' = sql_update_log (clock s) st n err id (session s)
      /\ session s' = durable s'
      /\ new_commits s s' = [durable s']
  | (inl e, s') =>
      (fault (EndExec st) = Some e
       \/ (fault (EndExec st) = None /\ fault (EndCommit st) = Some e))
      /\ durable s' = durable s
      /\ session s' = durable s
      /\ new_commits s s' = []
      /\ last (new_events s s') = Some EvRollback
      /\ last (logged s') = Some (ledger_failure_line p e)
  end.
Proof.
  destruct p; unfold script_log_end; unfold_script; simpl.
  all: destruct (fault (EndExec st)) eqn:He; simpl.
  all: try destruct (fault (EndCommit st)) eqn:Hc; simpl.
  all: norm_new; rewrite ?last_snoc; repeat split; eauto.
Qed.

(** * What the export leaves alone, and what it leaves behind *)

(** The export only reads tables: in every run, whatever fails, every
    state it commits and the state it ends in hold the tables exactly as
    the run found them, and it sends no truncate and no insert. *)
Theorem export_never_writes_tables fault to_csv s :
  tables (durable (snd (export_f101_to_csv fault to_csv s)))
    = tables (durable s)
  /\ Forall (fun db => tables db = tables (durable s))
            (new_commits s (snd (export_f101_to_csv fault to_csv s)))
  /\ filter is_table_write
       (new_events s (snd (export_f101_to_csv fault to_csv s))) = [].
Proof.
  unfold_script; simpl.
  repeat (step fault plain_read_csv).
  all: norm_new; split; [reflexivity|]; split; [|reflexivity].
  all: repeat constructor.
Qed.

(** The export writes its file before it closes the Run Record and never
    removes it: once the write was accepted the file holds the CSV text of
    the source table as the run found it, even when the run then fails on
    the closing ledger update; in every other run the files are left as
    they were. *)
Theorem export_file_outlives_failure fault to_csv s :
  (EvToCsv output_file
     ∈ new_events s (snd (export_f101_to_csv fault to_csv s)) ->
   fault ToCsv = None ->
   exists src,
     tables (durable s) !! source_table = Some src
     /\ files (snd (export_f101_to_csv fault to_csv s))
        = <[output_file := to_csv (frame_of src)]> (files s))
  /\ ((EvToCsv output_file
         ∉ new_events s (snd (export_f101_to_csv fault to_csv s))
       \/ is_Some (fault ToCsv)) ->
      files (snd (export_f101_to_csv fault to_csv s)) = files s).
Proof.
  unfold_script; simpl.
  repeat (step fault plain_read_csv).
  all: norm_new; split.
  all: try (intros Hin Hf; first [ not_in Hin | discriminate Hf ]).
  all: try (intros _ _; eexists; split; [eassumption|reflexivity]).
  all: try reflexivity.
  all: intros [Hnot|[? Hsome]]; [|discriminate Hsome].
  all: exfalso; apply Hnot; repeat constructor.
Qed.

Lemma export_file_outlives_failure_witness :
  fst (export_f101_to_csv (faults_at [(EndCommit "completed", ledger_down)])
         plain_to_csv missing_file_state) = inl ledger_down
  /\ exists src,
       tables (durable missing_file_state) !! source_table = Some src
       /\ files (snd (export_f101_to_csv
                        (faults_at [(EndCommit "completed", ledger_down)])
                        plain_to_csv missing_file_state))
          = <[output_file := plain_to_csv (frame_of src)]>
              (files missing_file_state).
Proof.
  split; [vm_compute; reflexivity|].
  destruct (export_file_outlives_failure
              (faults_at [(EndCommit "completed", ledger_down)])
              plain_to_csv missing_file_state) as (H & _).
  apply H.
  - vm_compute. repeat constructor.
  - reflexivity.
Defined.

(** * Edge cases of the load *)

(** A file with a header and no row: the import still truncates, sends no
    insert at all (so the header is never checked against the table),
    leaves the target table empty and closes the Run Record as completed
    with 0 records. *)
Theorem empty_buffer_empties_target fault read_csv s s' text df :
  import_f101_from_csv fault read_csv s = (inr tt, s') ->
  files s !! input_file = Some text ->
  read_csv text = inr df ->
  to_numpy df = [] ->
  filter is_insert_page (new_events s s') = []
  /\ EvExecute Truncate ∈ new_events s s'
  /\ (exists t, tables (durable s') !! target_table = Some t
                /\ tbl_rows t = [])
  /\ (exists r, last (etl_logs (durable s')) = Some r
                /\ status r = "completed" /\ records_processed r = 0%Z).
Proof.
  intros Hrun Hf Hr Hempty.
  destruct (import_success _ _ _ _ Hrun)
    as (text' & df' & d & t & rs & Hf' & Hr' & _ & _ & Hrs & Htab & Hled & _ & _ & Hev).
  cbv zeta in *.
  rewrite Hf in Hf'. injection Hf' as <-.
  rewrite Hr in Hr'. injection Hr' as <-.
  assert (Htuples : data_tuples df = [])
    by (unfold data_tuples; by rewrite Hempty).
  rewrite Htuples in *. simpl in Hrs. injection Hrs as <-.
  assert (Hpages : paginate ([] : list row) 1000 = []) by reflexivity.
  rewrite Hpages in Hev. simpl in Hev.
  split; [by rewrite Hev|]. split.
  { rewrite Hev. do 7 right. left. }
  split.
  { exists (with_rows [] t). split; [|done]. by rewrite Htab, lookup_insert_eq. }
  rewrite Hled. unfold sql_update_log, sql_insert_log. simpl.
  rewrite map_app. simpl. rewrite last_snoc.
  rewrite decide_True by done. eexists. split; [reflexivity|]. done.
Qed.

Lemma empty_buffer_empties_target_witness :
  exists t,
    tables (durable
              (snd (import_f101_from_csv no_fault plain_read_csv
                      (initial_state sample_db 1
                         (<[input_file := "no_such_column" +:+ newline]> ∅)))))
      !! target_table = Some t
    /\ tbl_rows t = [].
Proof.
  destruct (empty_buffer_empties_target no_fault plain_read_csv
              (initial_state sample_db 1
                 (<[input_file := "no_such_column" +:+ newline]> ∅))
              (snd (import_f101_from_csv no_fault plain_read_csv
                      (initial_state sample_db 1
                         (<[input_file := "no_such_column" +:+ newline]> ∅))))
              ("no_such_column" +:+ newline)
              {| columns := ["no_such_column"]; to_numpy := [] |})
    as (_ & _ & Ht & _).
  - vm_compute. reflexivity.
  - vm_compute. reflexivity.
  - vm_compute. reflexivity.
  - reflexivity.
  - exact Ht.
Defined.

Lemma sql_create_table_copy_present db t :
  tables db !! target_table = Some t -> sql_create_table_copy db = inr db.
Proof. intros H. unfold sql_create_table_copy. by rewrite H. Qed.

(** Loading is idempotent: the import changes no file, and a second
    import that returns after a first one, reading the same file, leaves
    every table exactly as the first one left it. *)
Theorem import_twice_same_tables fault1 fault2 read_csv s s1 s2 :
  import_f101_from_csv fault1 read_csv s = (inr tt, s1) ->
  import_f101_from_csv fault2 read_csv s1 = (inr tt, s2) ->
  files s1 = files s
  /\ files s2 = files s
  /\ tables (durable s2) = tables (durable s1).
Proof.
  intros H1 H2.
  destruct (import_success _ _ _ _ H1)
    as (text & df & d & t & rs & Hf & Hr & _ & _ & Hrs & Htab & _ & Hfiles & _).
  destruct (import_success _ _ _ _ H2)
    as (text' & df' & d' & t' & rs' & Hf' & Hr' & Hc' & Ht' & Hrs' & Htab' & _ & Hfiles' & _).
  cbv zeta in *.
  rewrite Hfiles, Hf in Hf'. injection Hf' as <-.
  rewrite Hr in Hr'. injection Hr' as <-.
  assert (Hpresent : tables (durable s1) !! target_table = Some (with_rows rs t))
    by (by rewrite Htab, lookup_insert_eq).
  rewrite (sql_create_table_copy_present _ _ Hpresent) in Hc'.
  injection Hc' as <-. rewrite Hpresent in Ht'. injection Ht' as <-.
  simpl in Hrs'. rewrite Hrs in Hrs'. injection Hrs' as <-.
  split; [done|]. split; [congruence|].
  rewrite Htab', Htab. by rewrite insert_insert_eq.
Qed.

Lemma import_twice_same_tables_witness :
  tables (durable
            (snd (import_f101_from_csv no_fault plain_read_csv
                    (snd (import_f101_from_csv no_fault plain_read_csv
                            ready_state)))))
  = tables (durable (snd (import_f101_from_csv no_fault plain_read_csv
                            ready_state))).
Proof.
  destruct (import_twice_same_tables no_fault no_fault plain_read_csv
              ready_state
              (snd (import_f101_from_csv no_fault plain_read_csv ready_state))
              (snd (import_f101_from_csv no_fault plain_read_csv
                      (snd (import_f101_from_csv no_fault plain_read_csv
                              ready_state)))))
    as (_ & _ & H).
  - vm_compute. reflexivity.
  - vm_compute. reflexivity.
  - exact H.
Defined.

(** * A bulk insert that stops half way *)

(** What the loop of [execute_batch] leaves behind, whether it ends or
    stops at a rejected page: [j] pages were accepted, their rows are in
    the target table of the open transaction, and nothing else changed. *)
Lemma execute_pages_outcome fault cols pages : forall k s r s',
  execute_pages fault cols k pages s = (r, s') ->
  exists j db',
    etl_logs db' = etl_logs (session s)
    /\ (forall name, name <> target_table ->
          tables db' !! name = tables (session s) !! name)
    /\ (forall t, tables (session s) !! target_table = Some t ->
          exists rs,
            insert_rows (tbl_columns t) cols (concat (take j pages)) = inr rs
            /\ tables db'
               = <[target_table := with_rows (tbl_rows t ++ rs) t]>
                   (tables (session s)))
    /\ match r with
       | inr _ =>
           j = length pages
           /\ s' = with_trace (trace s ++ page_events cols pages)
                     (with_session db' s)
       | inl _ =>
           j < length pages
           /\ s' = with_trace (trace s ++ page_events cols (take (S j) pages))
                     (with_session db' s)
       end.
Proof.
  induction pages as [|page pages IH]; intros k s r s'; simpl.
  - intros [= <- <-]. exists 0, (session s). simpl.
    rewrite app_nil_r, state_eta.
    split; [done|]. split; [done|]. split; [|done].
    intros t Ht. exists []. split; [done|].
    by rewrite app_nil_r, with_rows_same, insert_id.
  - unfold bind, execute. simpl.
    assert (Hstop : forall e : exn,
      exists j db',
        etl_logs db' = etl_logs (session s)
        /\ (forall name, name <> target_table ->
              tables db' !! name = tables (session s) !! name)
        /\ (forall t, tables (session s) !! target_table = Some t ->
              exists rs,
                insert_rows (tbl_columns t) cols
                  (concat (take j (page :: pages))) = inr rs
                /\ tables db'
                   = <[target_table := with_rows (tbl_rows t ++ rs) t]>
                       (tables (session s)))
        /\ j < S (length pages)
        /\ emit (EvExecute (InsertPage cols page)) s
           = with_trace
               (trace s ++ page_events cols (take (S j) (page :: pages)))
               (with_session db' s)).
    { intros _. exists 0, (session s).
      split; [done|]. split; [done|]. split.
      - intros t Ht. exists []. split; [done|].
        by rewrite app_nil_r, with_rows_same, insert_id.
      - split; [lia|]. simpl. by destruct s. }
    destruct (fault (BatchExec k)) as [e|].
    { intros [= <- <-]. exact (Hstop e). }
    destruct (sql_insert_page cols page (session s)) as [e|db1] eqn:Hp.
    { intros [= <- <-]. exact (Hstop e). }
    clear Hstop. intros Hrest.
    apply IH in Hrest as (j & db' & Hlogs & Hothers & Htarget & Hend).
    apply sql_insert_page_inv in Hp as (t1 & r1 & Ht1 & Hr1 & ->).
    exists (S j), db'. simpl in *.
    split; [done|]. split.
    { intros name Hname. rewrite Hothers by done. by apply lookup_insert_ne. }
    split.
    { intros t Ht. rewrite Ht in Ht1. injection Ht1 as <-.
      destruct (Htarget (with_rows (tbl_rows t ++ r1) t)) as (rs & Hrs & Htab).
      { by rewrite lookup_insert_eq. }
      exists (r1 ++ rs). split.
      + by apply insert_rows_app.
      + rewrite Htab. simpl. rewrite insert_insert_eq. unfold with_rows. simpl.
        by rewrite <- app_assoc. }
    destruct r as [e|[]]; destruct Hend as [Hj ->]; (split; [lia|]).
    all: unfold with_trace, with_session, emit; simpl; f_equal.
    all: unfold with_trace; simpl; by rewrite <- app_assoc.
Qed.

Ltac run_pages_outcome :=
  match goal with
  | |- context [execute_pages ?f ?c ?k ?p ?s] =>
      let r := fresh "r" in
      let sp := fresh "sp" in
      let Hp := fresh "Hpages" in
      let Hlogs := fresh "Hlogs" in
      let Hothers := fresh "Hothers" in
      let Htarget := fresh "Htarget" in
      let Hend := fresh "Hend" in
      destruct (execute_pages f c k p s) as [r sp] eqn:Hp;
      apply execute_pages_outcome in Hp
        as (? & ? & Hlogs & Hothers & Htarget & Hend);
      simpl in Hlogs, Hothers, Htarget;
      destruct r as [?|[]]; destruct Hend as [? ->]
  end.

(** [step], with the loop of the bulk insert split by its outcome. *)
Ltac step_outcome fault read_csv :=
  first
    [ lazymatch goal with
      | |- context [fault TruncateCommit] => fail
      | |- _ => idtac
      end;
      run_pages_outcome; simpl
    | step fault read_csv ].

Lemma sql_create_table_copy_others db d name :
  sql_create_table_copy db = inr d ->
  name <> target_table ->
  tables d !! name = tables db !! name.
Proof.
  unfold sql_create_table_copy.
  destruct (tables db !! target_table) as [t|]; [by intros [= <-]|].
  destruct (tables db !! source_table) as [src|]; [|done].
  intros [= <-] Hname. simpl. by apply lookup_insert_ne.
Qed.

(** The import works on the target table alone.  Whatever the store or
    the reader rejects, a run changes no file, and every state it commits,
    the last one included, holds every table other than the target (the
    source table among them) exactly as the run found it. *)
Theorem import_touches_only_target fault read_csv s name :
  name <> target_table ->
  files (snd (import_f101_from_csv fault read_csv s)) = files s
  /\ tables (durable (snd (import_f101_from_csv fault read_csv s))) !! name
     = tables (durable s) !! name
  /\ Forall (fun db => tables db !! name = tables (durable s) !! name)
       (new_commits s (snd (import_f101_from_csv fault read_csv s))).
Proof.
  intros Hname. unfold_script; simpl.
  repeat (step_outcome fault read_csv).
  all: split; [reflexivity|].
  all: norm_new.
  all: try match goal with
           | H : sql_create_table_copy _ = inr _ |- _ =>
               pose proof (sql_create_table_copy_others _ _ name H Hname)
           end.
  all: repeat constructor; simpl.
  all: rewrite ?Hothers by done; simpl.
  all: rewrite ?lookup_insert_ne by done; done.
Qed.


Lemma import_touches_only_target_witness :
  tables (durable
            (snd (import_f101_from_csv (faults_at [(BatchExec 0, ledger_down)])
                    plain_read_csv ready_state))) !! source_table
  = tables (durable ready_state) !! source_table.
Proof.
  destruct (import_touches_only_target (faults_at [(BatchExec 0, ledger_down)])
              plain_read_csv ready_state source_table) as (_ & H & _).
  - vm_compute. discriminate.
  - exact H.
Defined.


(** * The ledger across runs *)

Ltac ledger_of_commit :=
  repeat match goal with
         | H : etl_logs ?x = _ |- context [etl_logs ?x] =>
             is_var x; simpl in H; rewrite H
         end.

(** The ledger only grows, one record per run at most.  On a store whose
    ledger holds no identifier at or above the sequence, a run of either
    script, whatever is rejected on the way, leaves the committed Run
    Records it found untouched and in place, and adds at most one, with
    the identifier drawn from the sequence, the script's table name and
    the start time read at the begin.  The sequence never goes back (it
    advances even when the begin is rolled back), so the store is in the
    same condition for the next run. *)
Theorem ledger_append_only fault to_csv read_csv p s :
  fresh_ids s ->
  fresh_ids (snd (run_script fault to_csv read_csv p s))
  /\ (log_seq s <= log_seq (snd (run_script fault to_csv read_csv p s)))%Z
  /\ (etl_logs (durable (snd (run_script fault to_csv read_csv p s)))
      = etl_logs (durable s)
      \/ exists r,
           etl_logs (durable (snd (run_script fault to_csv read_csv p s)))
           = etl_logs (durable s) ++ [r]
           /\ log_id r = log_seq s
           /\ table_name r = ledger_name p
           /\ start_time r = clock s).
Proof.
  intros Hfresh. unfold fresh_ids in *.
  destruct p; unfold_script; simpl.
  all: repeat (step fault read_csv).
  all: ledger_of_commit; simpl.
  all: rewrite ?map_app, ?(update_fresh _ _ _ _ _ _ Hfresh); simpl.
  all: rewrite ?decide_True by done.
  all: split;
    [ rewrite ?Forall_app; repeat split;
      try (eapply Forall_impl; [exact Hfresh|simpl; intros; lia]);
      repeat constructor; simpl; lia
    | split; [lia|] ].
  all: first [ left; reflexivity
             | right; eexists; split; [reflexivity|done] ].
Qed.

Lemma ledger_append_only_witness :
  fresh_ids (snd (run_script (faults_at [(StartCommit, ledger_down)])
                    plain_to_csv plain_read_csv Export ready_state))
  /\ log_seq (snd (run_script (faults_at [(StartCommit, ledger_down)])
                     plain_to_csv plain_read_csv Export ready_state)) = 2%Z.
Proof.
  destruct (ledger_append_only (faults_at [(StartCommit, ledger_down)])
              plain_to_csv plain_read_csv Export ready_state) as (H & _).
  - constructor.
  - split; [exact H|]. vm_compute. reflexivity.
Defined.

(** * The log stream *)

(** The log stream tells the outcome.  Under every fault plan, a run of
    either script returns exactly when every line it logged is an INFO
    line: each path on which it raises logs at least one ERROR line, and
    no path on which it returns logs one. *)
Theorem error_logged_iff_raised fault to_csv read_csv p s :
  fst (run_script fault to_csv read_csv p s) = inr tt
  <-> Forall (fun l => fst l = "INFO")
        (new_logged s (snd (run_script fault to_csv read_csv p s))).
Proof.
  destruct p; unfold_script; simpl.
  all: repeat (step fault read_csv).
  all: unfold new_logged; simpl;
       rewrite <- ?app_assoc, ?drop_app_length, ?drop_all; simpl.
  all: split; [intros Hret; try discriminate Hret; repeat constructor|].
  all: intros Hall; try reflexivity; exfalso.
  all: repeat (apply Forall_cons in Hall as [Hhd Hall];
               first [discriminate Hhd|clear Hhd]).
Qed.

(** * Runs that repeat, and files that do not parse *)

(** Exporting is idempotent: the export changes no table, so a second
    export that returns after a first one rewrites the output file with
    the text it already holds. *)
Theorem export_twice_same_file fault1 fault2 to_csv s s1 s2 :
  export_f101_to_csv fault1 to_csv s = (inr tt, s1) ->
  export_f101_to_csv fault2 to_csv s1 = (inr tt, s2) ->
  tables (durable s2) = tables (durable s)
  /\ files s2 = files s1.
Proof.
  intros H1 H2.
  destruct (export_success _ _ _ _ H1) as (src & Hsrc & Hd & Hf & _).
  destruct (export_success _ _ _ _ H2) as (src' & Hsrc' & Hd' & Hf' & _).
  cbv zeta in *.
  assert (Ht1 : tables (durable s1) = tables (durable s)) by (by rewrite Hd).
  rewrite Ht1, Hsrc in Hsrc'. injection Hsrc' as <-.
  split.
  - by rewrite Hd'.
  - rewrite Hf', Hf. by rewrite insert_insert_eq.
Qed.

Lemma export_twice_same_file_witness :
  files (snd (export_f101_to_csv no_fault plain_to_csv
                (snd (export_f101_to_csv no_fault plain_to_csv
                        missing_file_state))))
  = files (snd (export_f101_to_csv no_fault plain_to_csv missing_file_state)).
Proof.
  destruct (export_twice_same_file no_fault no_fault plain_to_csv
              missing_file_state
              (snd (export_f101_to_csv no_fault plain_to_csv missing_file_state))
              (snd (export_f101_to_csv no_fault plain_to_csv
                      (snd (export_f101_to_csv no_fault plain_to_csv
                              missing_file_state)))))
    as (_ & H).
  - vm_compute. reflexivity.
  - vm_compute. reflexivity.
  - exact H.
Defined.

Lemma sql_create_table_copy_keeps db d name t :
  sql_create_table_copy db = inr d ->
  tables db !! name = Some t ->
  tables d !! name = Some t.
Proof.
  unfold sql_create_table_copy.
  destruct (tables db !! target_table) as [t0|] eqn:Ht; [by intros [= <-]|].
  destruct (tables db !! source_table) as [src|]; [|done].
  intros [= <-] Hname. simpl. rewrite lookup_insert_ne; [done|].
  intros <-. congruence.
Qed.

(** The file is parsed before the target table is cleared.  When the
    input file exists and the reader rejects its text, the import raises
    without having sent a truncate or an insert, and every table the
    store held, the target with its old rows included, is committed as it
    was. *)
Theorem unparsable_file_keeps_tables fault read_csv s text e :
  files s !! input_file = Some text ->
  read_csv text = inl e ->
  (exists e', fst (import_f101_from_csv fault read_csv s) = inl e')
  /\ filter is_table_write
       (new_events s (snd (import_f101_from_csv fault read_csv s))) = []
  /\ forall name t,
       tables (durable s) !! name = Some t ->
       tables (durable (snd (import_f101_from_csv fault read_csv s))) !! name
       = Some t.
Proof.
  intros Hf Hr. unfold_script; simpl.
  repeat (step fault read_csv; rewrite ?Hf; simpl).
  all: try congruence.
  all: split; [eexists; reflexivity|].
  all: norm_new; split; [reflexivity|].
  all: intros name t Hname; simpl; try done.
  all: by eapply sql_create_table_copy_keeps.
Qed.

Lemma unparsable_file_keeps_tables_witness :
  tables (durable
            (snd (import_f101_from_csv no_fault plain_read_csv
                    (initial_state sample_db 1 (<[input_file := newline]> ∅)))))
    !! source_table
  = Some f101_sample.
Proof.
  destruct (unparsable_file_keeps_tables no_fault plain_read_csv
              (initial_state sample_db 1 (<[input_file := newline]> ∅))
              newline
              (Exn "EmptyDataError" "No columns to parse from file"))
    as (_ & _ & H).
  - vm_compute. reflexivity.
  - vm_compute. reflexivity.
  - apply H. vm_compute. reflexivity.
Defined.

(** * A truncate whose commit is rejected *)


